(** * Verification of delve's rr (record/replay) backend glue

    Shallow embedding of [pkg/proc/gdbserial/rr.go]: the redirect resolver
    [openRedirects], the preflight [checkRRAvailable], the diagnostic line
    parser [rrParseGdbCommand] with its driver [rrStderrParser], the
    composite [RecordAndReplay] and the trace directory cleaner
    [safeRemoveAll]. *)

From Stdlib Require Import ZArith Lia Ascii String List Bool.
From stdpp Require Import base option list strings gmap fin_maps.

Local Open Scope string_scope.
Local Open Scope Z_scope.
Local Open Scope nat_scope.
Local Open Scope list_scope.

(** ** Go values *)

(** Go [error] values produced or forwarded by this file:
    [ErrBackendUnavailable] (declared elsewhere in the package),
    [ErrPerfEventParanoid] and [ErrMalformedRRGdbCommand] with their
    fields, and [ErrOS] for the errors of the [os], [os/exec] and [io]
    packages, which the code only forwards. *)
Inductive error : Type :=
| ErrBackendUnavailable
| ErrPerfEventParanoid (actual : Z)
| ErrMalformedRRGdbCommand (line reason : string)
| ErrOS (msg : string).

(** A Go call either returns, or dies in a run-time panic (index or slice
    out of range, call of a nil func), or -- for the loops that are run
    with fuel here -- is cut before it finished. *)
Inductive outcome (A : Type) : Type :=
| Ok (a : A)
| Panicked (why : string)
| Diverged.
Arguments Ok {A} a.
Arguments Panicked {A} why.
Arguments Diverged {A}.

(** Library functions of Go and of packages of the repository that are not
    part of the file under verification. *)
Class Externals : Type := {
  (* config.SplitQuotedFields(in, quote) *)
  SplitQuotedFields : string -> ascii -> list string;
  (* strings.TrimSpace *)
  TrimSpace : string -> string;
  (* strconv.Atoi: the value and the error, both always returned *)
  Atoi : string -> Z * option error
}.

(** ** Strings *)

(** [strings.HasPrefix(s, prefix)] *)
Fixpoint HasPrefix (s prefix : string) {struct prefix} : bool :=
  match prefix with
  | EmptyString => true
  | String p prefix' =>
      match s with
      | EmptyString => false
      | String c s' => if decide (c = p) then HasPrefix s' prefix' else false
      end
  end.

(** The slice expression [s[n:]]; it panics when [n > len(s)]. *)
Fixpoint slice_from (s : string) (n : nat) {struct n} : option string :=
  match n with
  | O => Some s
  | S n' =>
      match s with
      | EmptyString => None
      | String _ s' => slice_from s' n'
      end
  end.

(** Index expression [l[i]] for a Go [int] index. *)
Definition index {A} (l : list A) (i : Z) : option A :=
  if decide (i < 0)%Z then None else l !! Z.to_nat i.

(** ** The diagnostic line parser *)

Record rrInit : Type := mkInit {
  port : string;
  exe : string;
  err : option error
}.

Definition rrGdbCommandPrefix : string := "  gdb ".
Definition rrGdbLaunchPrefix : string := "Launch gdb with".
Definition targetCmd : string := "target extended-remote ".

(** What one pass through the body of the [for] loop of
    [rrParseGdbCommand] does: either the function returns, or control goes
    back to the loop condition (after the post statement [i++]) with new
    values of [i] and [port].  The index [i] is a Go [int] that starts at 0
    and only grows, by at most 2 from a value below [len(fields)]; it is a
    [nat] here. *)
Inductive iter : Type :=
| Return (r : rrInit)
| Continue (i : nat) (port : string).

Definition loopBody (line : string) (fields : list string) (i : nat) (port : string)
  : outcome iter :=
  match fields !! i with
  | None => Panicked "index out of range"
  | Some f =>
      if decide (f = "-ex") then
        if decide (length fields <= i + 1) then
          Ok (Return (mkInit "" "" (Some (ErrMalformedRRGdbCommand line "-ex not followed by an argument"))))
        else
          match fields !! (i + 1) with
          | None => Panicked "index out of range"
          | Some arg =>
              if negb (HasPrefix arg targetCmd) then
                (* continue: the post statement alone *)
                Ok (Continue (i + 1) port)
              else
                match slice_from arg (String.length targetCmd) with
                | None => Panicked "slice bounds out of range"
                | Some p => (* i++, then the post statement *)
                            Ok (Continue (i + 1 + 1) p)
                end
          end
      else if decide (f = "-l") then
        (* skip argument: i++, then the post statement *)
        Ok (Continue (i + 1 + 1) port)
      else
        Ok (Continue (i + 1) port)
  end.

(** The [for] loop, started at the loop condition with index [i]. *)
Inductive loopResult : Type :=
| Break (r : rrInit)
| Completed (port : string).

Fixpoint loop (fuel : nat) (line : string) (fields : list string) (i : nat) (port : string)
  : outcome loopResult :=
  match fuel with
  | O => Diverged
  | S fuel' =>
      if decide (i < length fields) then
        match loopBody line fields i port with
        | Ok (Return r) => Ok (Break r)
        | Ok (Continue i' port') => loop fuel' line fields i' port'
        | Panicked w => Panicked w
        | Diverged => Diverged
        end
      else Ok (Completed port)
  end.

Definition rrParseGdbCommand `{Externals} (line : string) : outcome rrInit :=
  let port := "" in
  let fields := SplitQuotedFields line "'"%char in
  match loop (S (length fields)) line fields 0 port with
  | Ok (Break r) => Ok r
  | Ok (Completed port) =>
      if decide (port = "") then
        Ok (mkInit "" "" (Some (ErrMalformedRRGdbCommand line "could not find -ex argument")))
      else
        match index fields (Z.of_nat (length fields) - 1) with
        | None => Panicked "index out of range"
        | Some exe => Ok (mkInit port exe None)
        end
  | Panicked w => Panicked w
  | Diverged => Diverged
  end.

(** The scan of the loop read off the list of the fields that are still to
    be examined; [loop_scanList] shows that the loop computes it. *)
Fixpoint scanList (line : string) (l : list string) (port : string) : loopResult :=
  match l with
  | [] => Completed port
  | f :: tl =>
      if decide (f = "-ex") then
        match tl with
        | [] => Break (mkInit "" "" (Some (ErrMalformedRRGdbCommand line "-ex not followed by an argument")))
        | arg :: rest =>
            if HasPrefix arg targetCmd
            then scanList line rest (default "" (slice_from arg (String.length targetCmd)))
            else scanList line tl port
        end
      else if decide (f = "-l") then
        match tl with
        | [] => Completed port
        | _ :: rest => scanList line rest port
        end
      else scanList line tl port
  end.

(** The positions and ports with which the loop condition is evaluated
    when the loop is started at [(i, p)]. *)
Inductive reaches (line : string) (fields : list string)
  : nat -> string -> nat -> string -> Prop :=
| reaches_here i p : reaches line fields i p i p
| reaches_step i p i' p' j q :
    i < length fields ->
    loopBody line fields i p = Ok (Continue i' p') ->
    reaches line fields i' p' j q ->
    reaches line fields i p j q.

(** Modelled from the spec: config.SplitQuotedFields (pkg/config/split.go) is
    not among the sources.  The spec describes it as "shell-like tokenization
    that treats single-quoted spans as one field (embedded spaces
    preserved)": fields are separated by white space, a quote opens or
    closes a span in which white space does not separate, and the quotes
    themselves are dropped. *)
Inductive splitState : Type := inSpace | inField | inQuote.

Definition isSpace (c : ascii) : bool :=
  match nat_of_ascii c with
  | 9 | 10 | 11 | 12 | 13 | 32 => true
  | _ => false
  end.

Fixpoint splitFrom (quote : ascii) (st : splitState) (buf : string) (s : string)
  : list string :=
  match s with
  | EmptyString =>
      match st with
      | inSpace => []
      | _ => [buf]
      end
  | String c s' =>
      match st with
      | inSpace =>
          if decide (c = quote) then splitFrom quote inQuote "" s'
          else if isSpace c then splitFrom quote inSpace "" s'
          else splitFrom quote inField (String c "") s'
      | inField =>
          if decide (c = quote) then splitFrom quote inQuote buf s'
          else if isSpace c then buf :: splitFrom quote inSpace "" s'
          else splitFrom quote inField (buf +:+ String c "") s'
      | inQuote =>
          if decide (c = quote) then splitFrom quote inField buf s'
          else splitFrom quote inQuote (buf +:+ String c "") s'
      end
  end.

Definition splitQuotedFields (s : string) (quote : ascii) : list string :=
  splitFrom quote inSpace "" s.


(** [rrStderrParser] reads the diagnostic stream line by line.  The stream
    is given by the lines that [ReadString] returns without error and by
    the error that ends it.  The result is the value sent on [initch] and
    the lines written to this process's own standard error. *)
Fixpoint rrStderrParser `{Externals} (lines : list string) (rderr : error) (quiet : bool)
  : outcome rrInit * list string :=
  match lines with
  | [] => (Ok (mkInit "" "" (Some rderr)), [])
  | line :: rest =>
      if HasPrefix line rrGdbCommandPrefix then
        match slice_from line (String.length rrGdbCommandPrefix) with
        | None => (Panicked "slice bounds out of range", [])
        | Some l => (rrParseGdbCommand l, rest) (* io.Copy(os.Stderr, rd) *)
        end
      else if HasPrefix line rrGdbLaunchPrefix then
        rrStderrParser rest rderr quiet
      else
        let '(r, out) := rrStderrParser rest rderr quiet in
        (r, if quiet then out else line :: out)
  end.

(** ** The operating system *)

(** [*os.File] values; [nil] is [None] of [option File]. *)
Inductive File : Type :=
| OsStdin
| OsStdout
| OsStderr
| Handle (fd : nat).

Global Instance File_eq_dec : EqDecision File.
Proof. solve_decision. Defined.

Inductive RedirectMode : Type := RedirectFileMode | RedirectPathMode.

(** [proc.Redirect] *)
Record Redirect : Type := mkRedirect {
  Mode : RedirectMode;
  WriterFiles : option File * option File * option File;
  Paths : string * string * string
}.

(** [exec.Cmd], as far as this file sets it. *)
Record Cmd : Type := mkCmd {
  Args : list string;
  Dir : string;
  CmdStdin : option File;
  CmdStdout : option File;
  CmdStderr : option File;
  ExtraFiles : list File
}.

(** What the machine answers to the calls this file makes. *)
Record Env : Type := mkEnv {
  (* exec.LookPath: the path found, or an error *)
  lookPath : string -> option string;
  (* ioutil.ReadFile: the content, or an error *)
  readFile : string -> option string;
  (* os.Pipe *)
  pipeErr : option error;
  (* os.Open and os.Create of a path *)
  openErr : string -> option error;
  createErr : string -> option error;
  (* rr record: what it writes to descriptor 3, and the error of Run *)
  runRecord : Cmd -> string * option error;
  (* rr replay: StderrPipe, Start, the lines of its standard error with the
     error that ends the stream, and the outcome of Dial(port, exe) *)
  stderrPipeErr : option error;
  startErr : option error;
  replayStderr : string -> list string * error;
  dialErr : string -> string -> option error
}.

(** The calls to the system that the process makes. *)
Inductive Event : Type :=
| EvLookPath (file : string)
| EvReadFile (path : string)
| EvPipe
| EvOpen (path : string)
| EvCreate (path : string)
| EvClose (f : File)
| EvRun (c : Cmd)
| EvStart (c : Cmd)
| EvKill
| EvStderr (out : list string)
| EvDial (port exe : string).

(** The state of the process: the descriptors it holds open and the calls
    it has made (most recent first). *)
Record State : Type := mkState {
  nextFd : nat;
  openFds : list nat;
  events : list Event
}.

(** Go code that acts on the process: a state monad over [State], in
    which a panic ends the computation. *)
Definition M (A : Type) : Type := State -> outcome A * State.

Definition ret {A} (a : A) : M A := fun s => (Ok a, s).

Definition bind {A B} (m : M A) (k : A -> M B) : M B :=
  fun s =>
    match m s with
    | (Ok a, s') => k a s'
    | (Panicked w, s') => (Panicked w, s')
    | (Diverged, s') => (Diverged, s')
    end.

Definition panic {A} (why : string) : M A := fun s => (Panicked why, s).

Definition emit (e : Event) : M unit :=
  fun s => (Ok tt, mkState (nextFd s) (openFds s) (e :: events s)).

Definition lift {A} (o : outcome A) : M A := fun s => (o, s).

Global Instance M_ret : MRet M := @ret.
Global Instance M_bind : MBind M := fun A B k m => bind m k.

(** A fresh descriptor is handed out and recorded as open. *)
Definition newHandle : M File :=
  fun s => (Ok (Handle (nextFd s)),
            mkState (S (nextFd s)) (nextFd s :: openFds s) (events s)).

Definition os_Open (env : Env) (path : string) : M (File + error) :=
  emit (EvOpen path);;
  match openErr env path with
  | Some e => ret (inr e)
  | None => f ← newHandle; ret (inl f)
  end.

Definition os_Create (env : Env) (path : string) : M (File + error) :=
  emit (EvCreate path);;
  match createErr env path with
  | Some e => ret (inr e)
  | None => f ← newHandle; ret (inl f)
  end.

Definition os_Pipe (env : Env) : M (File * File + error) :=
  emit EvPipe;;
  match pipeErr env with
  | Some e => ret (inr e)
  | None => r ← newHandle; w ← newHandle; ret (inl (r, w))
  end.

(** [f.Close()]; the error is dropped by every caller. *)
Definition Close (f : File) : M unit :=
  fun s =>
    (Ok tt,
     mkState (nextFd s)
       (match f with
        | Handle fd => filter (fun x => x <> fd) (openFds s)
        | _ => openFds s
        end)
       (EvClose f :: events s)).

Fixpoint closeAll (fs : list File) : M unit :=
  match fs with
  | [] => ret tt
  | f :: fs' => Close f;; closeAll fs'
  end.

(** A value of type [func()] as [openRedirects] builds it: [nil], or the
    closure over the variable [toclose], given by the value [toclose] has
    when [openRedirects] returns (it is not assigned afterwards). *)
Definition closefn_t : Type := option (list File).

Definition callClosefn (c : closefn_t) : M unit :=
  match c with
  | None => panic "call of nil func"
  | Some toclose => closeAll toclose
  end.

(** ** Preflight check *)

Definition perfEventParanoidPath : string := "/proc/sys/kernel/perf_event_paranoid".

Definition checkRRAvailable `{Externals} (env : Env) : M (option error) :=
  emit (EvLookPath "rr");;
  match lookPath env "rr" with
  | None => mret (Some ErrBackendUnavailable)
  | Some _ =>
      (* Check that /proc/sys/kernel/perf_event_paranoid doesn't exist or is <= 1. *)
      emit (EvReadFile perfEventParanoidPath);;
      match readFile env perfEventParanoidPath with
      | Some buf =>
          let perfEventParanoid := fst (Atoi (TrimSpace buf)) in
          if decide (perfEventParanoid > 1)%Z
          then mret (Some (ErrPerfEventParanoid perfEventParanoid))
          else mret None
      | None => mret None
      end
  end.

(** ** Redirects *)

(** The five results of [openRedirects]. *)
Record Redirects : Type := mkRedirects {
  r_stdin : option File;
  r_stdout : option File;
  r_stderr : option File;
  r_closefn : closefn_t;
  r_err : option error
}.

(** The local closure [create]; it assigns the variables [err] and
    [toclose] of [openRedirects], which are threaded here. *)
Definition create (env : Env) (path : string) (dflt : File)
    (err : option error) (toclose : list File)
  : M (option File * option error * list File) :=
  if decide (path = "") then mret (Some dflt, err, toclose)
  else
    r ← os_Create env path;
    match r with
    | inl f => mret (Some f, None, toclose ++ [f])
    | inr e => mret (None, Some e, toclose)
    end.

Definition openRedirects (env : Env) (redirects : Redirect) (quiet : bool) : M Redirects :=
  let toclose : list File := [] in
  match Mode redirects with
  | RedirectFileMode =>
      let stdin := (WriterFiles redirects).1.1 in
      let stdin := match stdin with None => Some OsStdin | Some f => Some f end in
      let stdout := (WriterFiles redirects).1.2 in
      let stderr := (WriterFiles redirects).2 in
      mret (mkRedirects stdin stdout stderr (Some toclose) None)
  | RedirectPathMode =>
      r ← (if decide ((Paths redirects).1.1 <> "") then
             o ← os_Open env (Paths redirects).1.1;
             match o with
             | inr e => mret (inr e)
             | inl f => mret (inl (Some f, toclose ++ [f]))
             end
           else if quiet then mret (inl (Some OsStdin, toclose))
           else mret (inl (None, toclose)));
      match r with
      | inr e => mret (mkRedirects None None None None (Some e))
      | inl (stdin, toclose) =>
          '(stdout, err, toclose) ← create env (Paths redirects).1.2 OsStdout None toclose;
          match err with
          | Some e => mret (mkRedirects None None None None (Some e))
          | None =>
              '(stderr, err, toclose) ← create env (Paths redirects).2 OsStderr err toclose;
              match err with
              | Some e => mret (mkRedirects None None None None (Some e))
              | None => mret (mkRedirects stdin stdout stderr (Some toclose) None)
              end
          end
      end
  end.

(** ** Recording *)

(** The closure [run] that [RecordAsync] returns, by the variables it
    captures.  The goroutine that drains the read end of the pipe is
    represented by what it sends on [tracedirChan]: the trimmed text that
    the subprocess wrote to descriptor 3. *)
Record runFn : Type := mkRun {
  run_cmd : Cmd;
  run_closefn : closefn_t;
  run_wfd : File
}.

Definition callRun `{Externals} (env : Env) (r : runFn) : M (string * option error) :=
  emit (EvRun (run_cmd r));;
  let '(bs, err) := runRecord env (run_cmd r) in
  callClosefn (run_closefn r);;
  Close (run_wfd r);;
  let tracedir := TrimSpace bs in
  mret (tracedir, err).

Definition RecordAsync `{Externals} (env : Env)
    (cmd : list string) (wd : string) (quiet : bool) (redirects : Redirect)
  : M (option runFn * option Cmd * option error) :=
  e ← checkRRAvailable env;
  match e with
  | Some err => mret (None, None, Some err)
  | None =>
      p ← os_Pipe env;
      match p with
      | inr err => mret (None, None, Some err)
      | inl (rfd, wfd) =>
          let args := ["record"; "--print-trace-dir=3"] ++ cmd in
          r ← openRedirects env redirects quiet;
          match r_err r with
          | Some err => mret (None, None, Some err)
          | None =>
              let rrcmd :=
                mkCmd ("rr" :: args) wd (r_stdin r) (r_stdout r) (r_stderr r) [wfd] in
              mret (Some (mkRun rrcmd (r_closefn r) wfd), Some rrcmd, None)
          end
      end
  end.

Definition Record_ `{Externals} (env : Env)
    (cmd : list string) (wd : string) (quiet : bool) (redirects : Redirect)
  : M (string * option error) :=
  '(run, _, err) ← RecordAsync env cmd wd quiet redirects;
  match err with
  | Some e => mret ("", Some e)
  | None =>
      (* ignore run errors, it could be the program crashing *)
      match run with
      | Some r => callRun env r
      | None => panic "call of nil func"
      end
  end.

(** ** Replaying *)

(** [*proc.TargetGroup] as [Replay] sets it up.  [onDetach] is [None] for a
    nil hook and [Some dir] for the closure that calls [safeRemoveAll dir]. *)
Record TargetGroup : Type := mkTarget {
  tracedir : string;
  useXcmd : bool;
  onDetach : option string;
  dialPort : string;
  dialExe : string;
  debugInfoDirs : list string
}.

Definition Replay `{Externals} (env : Env)
    (tracedir : string) (quiet deleteOnDetach : bool) (debugInfoDirs : list string)
  : M (option TargetGroup * option error) :=
  e ← checkRRAvailable env;
  match e with
  | Some err => mret (None, Some err)
  | None =>
      let rrcmd :=
        mkCmd ["rr"; "replay"; "--dbgport=0"; tracedir] "" None (Some OsStdout) None [] in
      match stderrPipeErr env with
      | Some err => mret (None, Some err)
      | None =>
          emit (EvStart rrcmd);;
          match startErr env with
          | Some err => mret (None, Some err)
          | None =>
              let '(lines, rderr) := replayStderr env tracedir in
              let '(sent, out) := rrStderrParser lines rderr quiet in
              emit (EvStderr out);;
              init ← lift sent;
              match err init with
              | Some e => emit EvKill;; mret (None, Some e)
              | None =>
                  let onDetach := if deleteOnDetach then Some tracedir else None in
                  emit (EvDial (port init) (exe init));;
                  match dialErr env (port init) (exe init) with
                  | Some e => emit EvKill;; mret (None, Some e)
                  | None =>
                      mret (Some (mkTarget tracedir true onDetach
                                    (port init) (exe init) debugInfoDirs), None)
                  end
              end
          end
      end
  end.

(** [RecordAndReplay] acts like calling [Record] and then [Replay]. *)
Definition RecordAndReplay `{Externals} (env : Env)
    (cmd : list string) (wd : string) (quiet : bool)
    (debugInfoDirs : list string) (redirects : Redirect)
  : M (option TargetGroup * string * option error) :=
  '(tracedir, err) ← Record_ env cmd wd quiet redirects;
  if decide (tracedir = "") then mret (None, "", err)
  else
    '(t, err) ← Replay env tracedir quiet true debugInfoDirs;
    mret (t, tracedir, err).

(** ** The trace directory cleaner *)

(** An entry of a directory: whether it is itself a directory, and whether
    the system lets this process remove it (it does not when a permission
    is missing, the file is in use, or a subdirectory is not empty). *)
Record DirEntry : Type := mkEntry {
  entryIsDir : bool;
  entryRemovable : bool
}.

(** What a path names: a regular file, or a directory with its immediate
    entries by name. *)
Inductive Node : Type :=
| RegularFile
| Directory (entries : gmap string DirEntry) (removable : bool).

(** The result of [filepath.Join(dir, name)] names the entry [name] of
    [dir]; the other paths are those of the file system itself. *)
Inductive path : Type :=
| Path (dir : string)
| Join (dir name : string).

(** [os.FileInfo] *)
Record FileInfo : Type := mkFileInfo {
  Name : string;
  IsDir : bool
}.

(** The [os.FileInfo] that [Readdir] returns for an entry. *)
Definition toFileInfo (ne : string * DirEntry) : FileInfo :=
  mkFileInfo ne.1 (entryIsDir ne.2).

(** [os.Open(dir)] followed by [dh.Readdir(-1)]: [None] when [Open] fails,
    [Some None] when [Readdir] fails. *)
Definition os_Open_Readdir (fs : gmap string Node) (dir : string)
  : option (option (list FileInfo)) :=
  match fs !! dir with
  | None => None
  | Some RegularFile => Some None
  | Some (Directory entries _) =>
      Some (Some (toFileInfo <$> map_to_list entries))
  end.

(** [os.Remove(p)]: [None] is an error, in which case nothing changed. *)
Definition os_Remove (p : path) (fs : gmap string Node) : option (gmap string Node) :=
  match p with
  | Path dir =>
      match fs !! dir with
      | None => None
      | Some RegularFile => Some (delete dir fs)
      | Some (Directory entries removable) =>
          if decide (entries = ∅) then
            if removable then Some (delete dir fs) else None
          else None
      end
  | Join dir name =>
      match fs !! dir with
      | Some (Directory entries removable) =>
          match entries !! name with
          | Some e =>
              if entryRemovable e
              then Some (<[dir := Directory (delete name entries) removable]> fs)
              else None
          | None => None
          end
      | _ => None
      end
  end.

(** The second loop of [safeRemoveAll]; the flag tells whether it ran to
    its end ([true]) or returned from the function ([false]). *)
Fixpoint removeLoop (dir : string) (fis : list FileInfo) (fs : gmap string Node)
  : gmap string Node * bool :=
  match fis with
  | [] => (fs, true)
  | fi :: fis' =>
      match os_Remove (Join dir (Name fi)) fs with
      | None => (fs, false)
      | Some fs' => removeLoop dir fis' fs'
      end
  end.

(** [safeRemoveAll] removes [dir] and its contents but only as long as
    [dir] does not contain directories. *)
Definition safeRemoveAll (dir : string) (fs : gmap string Node) : gmap string Node :=
  match os_Open_Readdir fs dir with
  | None => fs
  | Some None => fs
  | Some (Some fis) =>
      if existsb IsDir fis then fs
      else
        let '(fs', finished) := removeLoop dir fis fs in
        if finished then
          match os_Remove (Path dir) fs' with
          | Some fs'' => fs''
          | None => fs'
          end
        else fs'
  end.


(** ** Instances used in the examples *)

(** White space is trimmed at both ends, as [strings.TrimSpace] does on
    ASCII text. *)
Fixpoint trimLeft (s : string) : string :=
  match s with
  | String c s' => if isSpace c then trimLeft s' else s
  | EmptyString => EmptyString
  end.

Fixpoint trimRight (s : string) : string :=
  match s with
  | EmptyString => EmptyString
  | String c s' =>
      match trimRight s' with
      | EmptyString => if isSpace c then EmptyString else String c EmptyString
      | t => String c t
      end
  end.

(** Decimal digits with an optional sign, as [strconv.Atoi] reads them on a
    64-bit machine: a value out of range is clamped and comes with an
    error, anything that is not a number gives 0 and an error. *)
Fixpoint digitsValue (acc : Z) (s : string) : option Z :=
  match s with
  | EmptyString => Some acc
  | String c s' =>
      let d := nat_of_ascii c in
      if decide (48 <= d <= 57) then digitsValue (10 * acc + Z.of_nat (d - 48))%Z s'
      else None
  end.

Definition atoi (s : string) : Z * option error :=
  let syntax := (0%Z, Some (ErrOS "strconv.Atoi: invalid syntax")) in
  match s with
  | EmptyString => syntax
  | String c s' =>
      let '(neg, ds) :=
        if decide (c = "-"%char) then (true, s')
        else if decide (c = "+"%char) then (false, s')
        else (false, s) in
      match ds with
      | EmptyString => syntax
      | _ =>
          match digitsValue 0 ds with
          | Some v =>
              let n := if neg then (- v)%Z else v in
              if decide (n > 9223372036854775807)%Z
              then (9223372036854775807%Z, Some (ErrOS "strconv.Atoi: value out of range"))
              else if decide (n < - 9223372036854775808)%Z
              then ((- 9223372036854775808)%Z, Some (ErrOS "strconv.Atoi: value out of range"))
              else (n, None)
          | None => syntax
          end
      end
  end.

Definition goExternals : Externals :=
  {| SplitQuotedFields := splitQuotedFields;
     TrimSpace := fun s => trimRight (trimLeft s);
     Atoi := atoi |}.

(** The lines used in the examples, as [ReadString] returns them. *)
Definition newline : string := String "010"%char EmptyString.

Definition gdbLine (x : string) : string :=
  "-ex 'target extended-remote 127.0.0.1:9999' -l somefile " +:+ x +:+ newline.

Definition sysrootLine : string := "-ex 'set sysroot /' exe".

Definition nestedFlag : string := "-ex -ex 'target extended-remote :1' exe".

Definition noPort : string := "-l somefile /usr/bin/true".

Definition twoMatches : string :=
  "-ex 'target extended-remote :1' -ex 'target extended-remote :2' exe".

Definition skippedMatch : string :=
  "-ex 'target extended-remote :1' -l -ex 'target extended-remote :2' exe".

(** A machine on which [rr] is installed and every file can be opened
    and created, except that nothing can be created under [/nonexistent]
    and [/root/secret] cannot be read. *)
Definition plainEnv : Env :=
  {| lookPath := fun _ => Some "/usr/bin/rr";
     readFile := fun _ => Some ("1" +:+ newline);
     pipeErr := None;
     openErr := fun p =>
       if decide (p = "/root/secret")
       then Some (ErrOS "open /root/secret: permission denied") else None;
     createErr := fun p =>
       if HasPrefix p "/nonexistent/"
       then Some (ErrOS "no such file or directory") else None;
     runRecord := fun _ => ("/root/.local/share/rr/true-0" +:+ newline, None);
     stderrPipeErr := None;
     startErr := None;
     replayStderr := fun _ =>
       (["Launch gdb with" +:+ newline;
         rrGdbCommandPrefix +:+ gdbLine "/usr/bin/true"], ErrOS "EOF");
     dialErr := fun _ _ => None |}.

(** The same machine with another recording, and with another content of
    the pseudo-file. *)
Definition withRunRecord (env : Env) (bs : string) (e : option error) : Env :=
  mkEnv (lookPath env) (readFile env) (pipeErr env) (openErr env) (createErr env)
    (fun _ => (bs, e))
    (stderrPipeErr env) (startErr env) (replayStderr env) (dialErr env).

Definition withParanoid (env : Env) (content : option string) : Env :=
  mkEnv (lookPath env) (fun _ => content) (pipeErr env) (openErr env) (createErr env)
    (runRecord env)
    (stderrPipeErr env) (startErr env) (replayStderr env) (dialErr env).

(** The characters of a word: no white space, no quote. *)
Fixpoint plainChars (x : string) : bool :=
  match x with
  | EmptyString => true
  | String c x' => negb (isSpace c) && negb (bool_decide (c = "'"%char)) && plainChars x'
  end.

(** The process at its start: descriptors 0, 1 and 2 are the standard
    streams, nothing else is open. *)
Definition startState : State := mkState 3 [] [].

Definition pathRedirect (stdin stdout stderr : string) : Redirect :=
  mkRedirect RedirectPathMode (None, None, None) (stdin, stdout, stderr).

(** A trace directory with two files, of which [data] cannot be removed,
    next to a directory that is not touched. *)
Definition lockedTrace : gmap string Node :=
  {[ "/tmp/trace" :=
       Directory {[ "data" := mkEntry false false;
                    "mmap" := mkEntry false true ]} true;
     "/home" := Directory {[ "user" := mkEntry true true ]} true ]}.


(** ** More machines and runs for the examples *)

(** A machine without [rr], one on which no pipe can be created, and one
    on which [rr replay] prints a command line without [-ex]. *)
Definition noRREnv : Env :=
  mkEnv (fun _ => None) (readFile plainEnv) (pipeErr plainEnv) (openErr plainEnv)
    (createErr plainEnv) (runRecord plainEnv)
    (stderrPipeErr plainEnv) (startErr plainEnv) (replayStderr plainEnv) (dialErr plainEnv).

Definition noPipeEnv : Env :=
  mkEnv (lookPath plainEnv) (readFile plainEnv) (Some (ErrOS "too many open files"))
    (openErr plainEnv) (createErr plainEnv) (runRecord plainEnv)
    (stderrPipeErr plainEnv) (startErr plainEnv) (replayStderr plainEnv) (dialErr plainEnv).

Definition badHandshakeEnv : Env :=
  mkEnv (lookPath plainEnv) (readFile plainEnv) (pipeErr plainEnv)
    (openErr plainEnv) (createErr plainEnv) (runRecord plainEnv)
    (stderrPipeErr plainEnv) (startErr plainEnv)
    (fun _ => ([rrGdbCommandPrefix +:+ noPort +:+ newline], ErrOS "EOF"))
    (dialErr plainEnv).

(** The state after the preflight on [plainEnv]. *)
Definition checkedState : State :=
  mkState 3 [] [EvReadFile perfEventParanoidPath; EvLookPath "rr"].

(** [openRedirects] with three paths, on [plainEnv]. *)
Definition threePaths : Redirect := pathRedirect "in.txt" "out.txt" "err.txt".

Definition threeFiles : Redirects :=
  mkRedirects (Some (Handle 3)) (Some (Handle 4)) (Some (Handle 5))
    (Some [Handle 3; Handle 4; Handle 5]) None.

Definition threeOpen : State :=
  mkState 6 [5; 4; 3] [EvCreate "err.txt"; EvCreate "out.txt"; EvOpen "in.txt"].

(** [RecordAsync] of [true] with the default redirects, on [plainEnv]. *)
Definition recordCmd : Cmd :=
  mkCmd ["rr"; "record"; "--print-trace-dir=3"; "true"] "."
    (Some OsStdin) (Some OsStdout) (Some OsStderr) [Handle 4].

Definition recordRun : runFn := mkRun recordCmd (Some []) (Handle 4).

Definition recordReady : State :=
  mkState 5 [4; 3] (EvPipe :: events checkedState).

(** [Replay] of [/tmp/trace] on [plainEnv] and on [badHandshakeEnv]. *)
Definition replayCmd : Cmd :=
  mkCmd ["rr"; "replay"; "--dbgport=0"; "/tmp/trace"] "" None (Some OsStdout) None [].

Definition replayTarget : TargetGroup :=
  mkTarget "/tmp/trace" true (Some "/tmp/trace") "127.0.0.1:9999" "/usr/bin/true" [].

Definition replayDone : State :=
  mkState 3 []
    (EvDial "127.0.0.1:9999" "/usr/bin/true" :: EvStderr [] :: EvStart replayCmd
       :: events checkedState).

Definition replayKilled : State :=
  mkState 3 [] (EvKill :: EvStderr [] :: EvStart replayCmd :: events checkedState).

Definition noPortError : error :=
  ErrMalformedRRGdbCommand (noPort +:+ newline) "could not find -ex argument".

(** A line with plain fields around the flag, and one whose [-ex] comes
    right after [-l]. *)
Definition plainLine : string := "-q -ex 'target extended-remote :1' /bin/ls".

Definition hiddenFlag : string := "-l -ex 'target extended-remote :2' exe".

(** A recording that ends without error and without a trace directory. *)
Definition silentEnv : Env := withRunRecord plainEnv newline None.


(** ** Notions used in the statements *)

(** A field that is neither of the two flags of [rrParseGdbCommand]. *)
Definition plainField (f : string) : Prop := f <> "-ex" /\ f <> "-l".

(** What [rrStderrParser] writes for the lines it reads before the line
    of the command: nothing when [quiet], and otherwise all of them but
    those that start with [rrGdbLaunchPrefix]. *)
Definition echoed (quiet : bool) (pre : list string) : list string :=
  if quiet then []
  else filter (fun l => HasPrefix l rrGdbLaunchPrefix = false) pre.

(** Descriptors are handed out in increasing order: in a state of the
    process, those that are open are below [nextFd]. *)
Definition freshState (s : State) : Prop :=
  Forall (fun fd => fd < nextFd s) (openFds s).

(** The events of the preflight check. *)
Definition preflightEvent (ev : Event) : Prop :=
  ev = EvLookPath "rr" \/ ev = EvReadFile perfEventParanoidPath.

(** The descriptors left open when the files [fs] are closed in turn. *)
Definition closedFds (fs : list File) (l : list nat) : list nat :=
  foldl (fun l f => match f with
                    | Handle fd => filter (fun x => x <> fd) l
                    | _ => l
                    end) l fs.

(** * Facts *)

#[local] Opaque targetCmd rrGdbCommandPrefix rrGdbLaunchPrefix.

(** ** Strings *)

Lemma HasPrefix_app (p r : string) : HasPrefix (p +:+ r) p = true.
Proof.
  induction p as [|c p IH]; simpl; [done|].
  destruct (decide (c = c)); [apply IH | congruence].
Qed.

Lemma slice_from_app (p r : string) : slice_from (p +:+ r) (String.length p) = Some r.
Proof. induction p as [|c p IH]; simpl; [done | apply IH]. Qed.

Lemma HasPrefix_slice (s p : string) :
  HasPrefix s p = true ->
  exists r, slice_from s (String.length p) = Some r /\ s = p +:+ r.
Proof.
  revert s. induction p as [|c p IH]; intros s Hp; simpl in *.
  - by exists s.
  - destruct s as [|d s]; [done|].
    destruct (decide (d = c)) as [->|]; [|done].
    destruct (IH s Hp) as (r & Hr & ->). by exists r.
Qed.

(** ** The scan of the fields *)

Lemma index_last {A} (l : list A) :
  index l (Z.of_nat (length l) - 1) = last l.
Proof.
  unfold index. destruct l as [|x l _] using rev_ind.
  - done.
  - rewrite length_app, last_snoc. simpl. case_decide; [lia|].
    replace (Z.to_nat (Z.of_nat (length l + 1) - 1)) with (length l + 0) by lia.
    by rewrite lookup_app_r, Nat.add_0_r, Nat.sub_diag by lia.
Qed.

(** The loop computes [scanList] on the fields from position [i] on,
    whenever the fuel exceeds the number of those fields: it neither
    panics nor runs out of fuel. *)
Lemma loop_scanList (line : string) (fields : list string) (fuel i : nat) (p : string) :
  length fields - i < fuel ->
  loop fuel line fields i p = Ok (scanList line (drop i fields) p).
Proof.
  revert i p. induction fuel as [|fuel IH]; intros i p Hfuel; [lia|].
  simpl. destruct (decide (i < length fields)) as [Hi|Hi].
  - destruct (lookup_lt_is_Some_2 fields i Hi) as [f Hf].
    unfold loopBody. rewrite Hf, (drop_S _ _ _ Hf). simpl.
    destruct (decide (f = "-ex")) as [->|Hex].
    + destruct (decide (length fields <= i + 1)) as [Hn|Hn].
      * rewrite drop_ge by lia. done.
      * destruct (lookup_lt_is_Some_2 fields (i + 1)) as [arg Harg]; [lia|].
        rewrite Harg. replace (S i) with (i + 1) by lia.
        rewrite (drop_S _ _ _ Harg).
        destruct (HasPrefix arg targetCmd) eqn:Hp; simpl.
        -- destruct (HasPrefix_slice _ _ Hp) as (r & Hr & _). rewrite Hr. simpl.
           rewrite IH by lia. by replace (i + 1 + 1) with (S (i + 1)) by lia.
        -- by rewrite IH, (drop_S _ _ _ Harg) by lia.
    + destruct (decide (f = "-l")) as [->|Hl].
      * rewrite IH by lia. replace (i + 1 + 1) with (S i + 1) by lia.
        destruct (drop (S i) fields) as [|x rest] eqn:Hd.
        -- rewrite drop_ge; [done|]. apply (f_equal length) in Hd.
           rewrite length_drop in Hd. simpl in Hd. lia.
        -- rewrite <- (drop_drop fields 1 (S i)), Hd. done.
      * rewrite IH by lia. by replace (i + 1) with (S i) by lia.
  - by rewrite drop_ge by lia.
Qed.

(** The loop replaces the port only where it meets the flag followed by an
    argument that carries the prefix, and then by the rest of that
    argument. *)
Lemma loop_port (line : string) (fields : list string) (fuel i : nat) (p q : string) :
  loop fuel line fields i p = Ok (Completed q) ->
  q = p \/
  exists j, fields !! j = Some "-ex" /\ fields !! (j + 1) = Some (targetCmd +:+ q).
Proof.
  revert i p. induction fuel as [|fuel IH]; intros i p Hl; [done|].
  simpl in Hl. case_decide; [|left; congruence].
  unfold loopBody in Hl. destruct (fields !! i) as [f|] eqn:Hf; [|done].
  destruct (decide (f = "-ex")) as [->|Hex].
  - case_decide; [done|].
    destruct (fields !! (i + 1)) as [arg|] eqn:Harg; [|done].
    destruct (HasPrefix arg targetCmd) eqn:Hp; simpl in Hl.
    + destruct (HasPrefix_slice _ _ Hp) as (r & Hr & ->). rewrite Hr in Hl.
      apply IH in Hl as [->|Hl]; [|by right]. right. by exists i.
    + by apply IH in Hl.
  - destruct (decide (f = "-l")); by apply IH in Hl.
Qed.

Lemma loopBody_Continue (line : string) (fields : list string) (i i' : nat) (p p' : string) :
  loopBody line fields i p = Ok (Continue i' p') -> i < i'.
Proof.
  unfold loopBody. intros Hb.
  repeat (case_match; simplify_eq); lia.
Qed.

(** Along the positions the loop goes through, what remains to be scanned
    gives the same result. *)
Lemma reaches_scanList (line : string) (fields : list string) (i j : nat) (p q : string) :
  reaches line fields i p j q ->
  scanList line (drop i fields) p = scanList line (drop j fields) q.
Proof.
  induction 1 as [|i p i' p' j q Hi Hb _ IH]; [done|].
  rewrite <- IH. pose proof (loopBody_Continue _ _ _ _ _ _ Hb) as Hlt.
  assert (Hl : loop (S (length fields - i)) line fields i p
               = loop (length fields - i) line fields i' p').
  { simpl. rewrite Hb. by case_decide. }
  rewrite !loop_scanList in Hl by lia. congruence.
Qed.

(** The pass of the loop body at a flag whose argument carries the prefix. *)
Lemma loopBody_ex_step (line : string) (fields : list string) (i : nat) (p q : string) :
  fields !! i = Some "-ex" ->
  fields !! (i + 1) = Some (targetCmd +:+ q) ->
  loopBody line fields i p = Ok (Continue (i + 2) q).
Proof.
  intros Hi Harg. unfold loopBody. rewrite Hi, Harg. simpl.
  apply lookup_lt_Some in Harg. rewrite decide_False by lia.
  rewrite HasPrefix_app, slice_from_app. simpl. by replace (i + 1 + 1) with (i + 2) by lia.
Qed.

Section Parser.
Context `{E : Externals}.

(** [rrParseGdbCommand] by the scan of the list of fields. *)
Lemma rrParseGdbCommand_scanList (line : string) :
  let fields := SplitQuotedFields line "'"%char in
  rrParseGdbCommand line =
  match scanList line fields "" with
  | Break r => Ok r
  | Completed port =>
      if decide (port = "") then
        Ok (mkInit "" "" (Some (ErrMalformedRRGdbCommand line "could not find -ex argument")))
      else
        match last fields with
        | None => Panicked "index out of range"
        | Some exe => Ok (mkInit port exe None)
        end
  end.
Proof.
  intros fields. unfold rrParseGdbCommand. fold fields.
  rewrite loop_scanList by lia. rewrite drop_0, index_last. done.
Qed.

(** A [Break] of the scan carries the error for a flag without argument. *)
Lemma scanList_Break (line : string) (l : list string) (p : string) (r : rrInit) :
  scanList line l p = Break r ->
  r = mkInit "" "" (Some (ErrMalformedRRGdbCommand line "-ex not followed by an argument")).
Proof.
  revert p. induction l as [l IH] using (induction_ltof1 _ (@length string)).
  unfold ltof in IH. intros p Hs. destruct l as [|f tl]; simpl in Hs; [done|].
  destruct (decide (f = "-ex")).
  - destruct tl as [|arg rest]; [congruence|].
    destruct (HasPrefix arg targetCmd); (eapply IH; [|exact Hs]); simpl; lia.
  - destruct (decide (f = "-l")).
    + destruct tl as [|x rest]; [done|]. (eapply IH; [|exact Hs]); simpl; lia.
    + (eapply IH; [|exact Hs]); simpl; lia.
Qed.

(** The two ways in which the parser returns, and that it always does. *)
Lemma rrParseGdbCommand_cases (line : string) :
  let fields := SplitQuotedFields line "'"%char in
  exists r, rrParseGdbCommand line = Ok r /\
    ((err r = None /\ port r <> "" /\ 2 <= length fields /\
      last fields = Some (exe r)) \/
     (exists reason,
         r = mkInit "" "" (Some (ErrMalformedRRGdbCommand line reason)))).
Proof.
  intros fields.
  pose proof (rrParseGdbCommand_scanList line) as Hp. simpl in Hp. fold fields in Hp.
  pose proof (loop_scanList line fields (S (length fields)) 0 "" ltac:(lia)) as Hl.
  rewrite drop_0 in Hl. rewrite Hp. clear Hp.
  destruct (scanList line fields "") as [r|q] eqn:Hs.
  - exists r. split; [done|]. right. apply scanList_Break in Hs. eauto.
  - case_decide as Hq; [eexists; split; [done|]; right; eauto|].
    apply loop_port in Hl as [->|(j & Hj & Hj')]; [done|].
    apply lookup_lt_Some in Hj'.
    destruct (last fields) as [x|] eqn:Hlast.
    + exists (mkInit q x None). split; [done|]. left. simpl.
      split_and!; [done|done|lia|done].
    + apply last_None in Hlast. rewrite Hlast in Hj'. simpl in Hj'. lia.
Qed.

(** C10: the parser never indexes out of bounds.  For every line it
    returns: either with the error for a malformed line, or -- found a
    non-empty port -- with the last field as executable, and then there
    are at least two fields (the flag and its argument), so that
    [fields[len(fields)-1]] is in bounds; the accesses [fields[i]] and
    [fields[i+1]] of the loop and the slice of the argument are in bounds
    too, as no panic is possible. *)
Theorem rrParseGdbCommand_in_bounds (line : string) :
  let fields := SplitQuotedFields line "'"%char in
  exists r, rrParseGdbCommand line = Ok r /\
    ((err r = None /\ port r <> "" /\ 2 <= length fields /\
      index fields (Z.of_nat (length fields) - 1) = Some (exe r)) \/
     (exists reason,
         r = mkInit "" "" (Some (ErrMalformedRRGdbCommand line reason)))).
Proof.
  intros fields. rewrite index_last. apply rrParseGdbCommand_cases.
Qed.

(** C5: when no field [-ex] is followed by a field that consists of the
    prefix [target extended-remote ] and a non-empty rest, the parser
    returns the error for a malformed line, and the line stored in it is
    the input of the parser; when moreover the scan runs to its end, the
    reason is "could not find -ex argument". *)
Theorem rrParseGdbCommand_no_port (line : string) :
  let fields := SplitQuotedFields line "'"%char in
  ~ (exists i q, fields !! i = Some "-ex" /\
                 fields !! (i + 1) = Some (targetCmd +:+ q) /\ q <> "") ->
  exists reason,
    rrParseGdbCommand line
    = Ok (mkInit "" "" (Some (ErrMalformedRRGdbCommand line reason))) /\
    (reason = "-ex not followed by an argument" \/
     reason = "could not find -ex argument") /\
    (forall q, loop (S (length fields)) line fields 0 "" = Ok (Completed q) ->
               reason = "could not find -ex argument").
Proof.
  intros fields Hno.
  pose proof (rrParseGdbCommand_scanList line) as Hp. simpl in Hp. fold fields in Hp.
  pose proof (loop_scanList line fields (S (length fields)) 0 "" ltac:(lia)) as Hl.
  rewrite drop_0 in Hl. rewrite Hp, Hl. clear Hp.
  destruct (scanList line fields "") as [r|q] eqn:Hs.
  - apply scanList_Break in Hs as ->. eexists. split_and!; [done|by left|done].
  - apply loop_port in Hl as [->|(j & Hj & Hj')].
    + rewrite decide_True by done. eexists. split_and!; [done|by right|done].
    + case_decide as Hq.
      * eexists. split_and!; [done|by right|done].
      * destruct Hno. by exists j, q.
Qed.

(** C2 (amended): on a field [-ex], the next field is required (without
    it the function returns the error "-ex not followed by an argument");
    when the next field starts with the prefix, its rest becomes the port
    and the scan goes on two positions further; when it does not, the
    port is kept and the scan goes on at the very next position, that of
    the argument. *)
Theorem loopBody_ex (line : string) (fields : list string) (i : nat) (p : string) :
  fields !! i = Some "-ex" ->
  match fields !! (i + 1) with
  | None =>
      loopBody line fields i p
      = Ok (Return (mkInit "" "" (Some (ErrMalformedRRGdbCommand line
                                         "-ex not followed by an argument"))))
  | Some arg =>
      if HasPrefix arg targetCmd
      then exists q, arg = targetCmd +:+ q /\
                     loopBody line fields i p = Ok (Continue (i + 2) q)
      else loopBody line fields i p = Ok (Continue (i + 1) p)
  end.
Proof.
  intros Hi. unfold loopBody. rewrite Hi. simpl.
  destruct (fields !! (i + 1)) as [arg|] eqn:Harg.
  - apply lookup_lt_Some in Harg as Hlt.
    destruct (decide (length fields <= i + 1)); [lia|].
    destruct (HasPrefix arg targetCmd) eqn:Hp; simpl; [|done].
    destruct (HasPrefix_slice _ _ Hp) as (q & Hq & ->). rewrite Hq.
    exists q. split; [done|]. by replace (i + 2) with (i + 1 + 1) by lia.
  - apply lookup_ge_None in Harg. by rewrite decide_True by lia.
Qed.

(** When the parser returns a port, the executable it returns with it is
    the last field of the line. *)
Lemma rrParseGdbCommand_exe_last (line : string) (r : rrInit) :
  rrParseGdbCommand line = Ok r -> err r = None ->
  last (SplitQuotedFields line "'"%char) = Some (exe r) /\ port r <> "".
Proof.
  intros Hr He. destruct (rrParseGdbCommand_cases line) as (r' & Hr' & H).
  rewrite Hr in Hr'. simplify_eq. by destruct H as [(_ & Hp & _ & Hx)|(reason & ->)].
Qed.

(** C4 (amended): for a line of the form
    [  gdb -ex 'target extended-remote 127.0.0.1:9999' -l somefile <exe>],
    tokenized with the quoted span as one field, and an [<exe>] that is
    not the field [-ex] itself, [rrStderrParser] sends port
    "127.0.0.1:9999" and executable [<exe>]; and whenever the parser
    returns a port, the executable is the last field of the line. *)
Theorem rrStderrParser_gdb_line
    (x rest : string) (more : list string) (rderr : error) (quiet : bool) :
  SplitQuotedFields rest "'"%char
  = ["-ex"; "target extended-remote 127.0.0.1:9999"; "-l"; "somefile"; x] ->
  x <> "-ex" ->
  rrStderrParser ((rrGdbCommandPrefix +:+ rest) :: more) rderr quiet
  = (Ok (mkInit "127.0.0.1:9999" x None), more) /\
  (forall line r,
      rrParseGdbCommand line = Ok r -> err r = None ->
      last (SplitQuotedFields line "'"%char) = Some (exe r)).
Proof.
  intros Hsplit Hx. split; [|intros line r Hr He; by apply rrParseGdbCommand_exe_last].
  simpl. rewrite HasPrefix_app, slice_from_app. f_equal.
  pose proof (rrParseGdbCommand_scanList rest) as Hp. simpl in Hp.
  rewrite Hp, Hsplit. clear Hp. simpl.
  assert (Hpre : HasPrefix "target extended-remote 127.0.0.1:9999" targetCmd = true)
    by (vm_compute; reflexivity).
  assert (Hsl : slice_from "target extended-remote 127.0.0.1:9999" (String.length targetCmd)
                = Some "127.0.0.1:9999") by (vm_compute; reflexivity).
  rewrite Hpre, Hsl. simpl.
  rewrite (decide_False (P := x = "-ex")) by done.
  by destruct (decide (x = "-l")).
Qed.

(** From a position on from which the loop meets no flag [-ex] whose
    argument is missing or starts with the prefix, it runs to its end and
    keeps the port. *)
Lemma scanList_keeps_port (line : string) (fields : list string) (q : string) (n s : nat) :
  length fields - s <= n ->
  (forall j pj, reaches line fields s q j pj -> fields !! j = Some "-ex" ->
                exists arg, fields !! (j + 1) = Some arg /\
                            HasPrefix arg targetCmd = false) ->
  scanList line (drop s fields) q = Completed q.
Proof.
  revert s. induction n as [|n IH]; intros s Hn Hlater.
  - by rewrite drop_ge by lia.
  - destruct (fields !! s) as [f|] eqn:Hf.
    2:{ apply lookup_ge_None in Hf. by rewrite drop_ge by lia. }
    apply lookup_lt_Some in Hf as Hlt.
    assert (Hstep : forall s', loopBody line fields s q = Ok (Continue s' q) ->
               scanList line (drop s fields) q = scanList line (drop s' fields) q).
    { intros s' Hb. apply reaches_scanList.
      eapply reaches_step; [done|exact Hb|constructor]. }
    assert (Hnext : forall s', loopBody line fields s q = Ok (Continue s' q) ->
               scanList line (drop s' fields) q = Completed q).
    { intros s' Hb. pose proof (loopBody_Continue _ _ _ _ _ _ Hb).
      apply IH; [lia|]. intros j pj Hr. apply (Hlater j pj).
      eapply reaches_step; [done|exact Hb|exact Hr]. }
    assert (Hb : exists s', loopBody line fields s q = Ok (Continue s' q)).
    { unfold loopBody. rewrite Hf. destruct (decide (f = "-ex")) as [->|].
      - destruct (Hlater s q (reaches_here _ _ _ _) Hf) as (arg & Harg & Hp).
        apply lookup_lt_Some in Harg as Hlt'.
        rewrite decide_False, Harg, Hp by lia. simpl. eauto.
      - destruct (decide (f = "-l")); eauto. }
    destruct Hb as (s' & Hb). rewrite (Hstep s' Hb). by apply Hnext.
Qed.

(** C9 (amended): the parser does not stop at the first match.  When the
    loop comes to a field [-ex] whose argument consists of the prefix and
    a non-empty rest [q], and after it meets no further [-ex] whose
    argument starts with the prefix (or is missing), the port returned is
    [q], whatever port was found before, and the executable is the last
    field of the line. *)
Theorem rrParseGdbCommand_last_match (line : string) (i : nat) (p q : string) :
  let fields := SplitQuotedFields line "'"%char in
  reaches line fields 0 "" i p ->
  fields !! i = Some "-ex" ->
  fields !! (i + 1) = Some (targetCmd +:+ q) ->
  q <> "" ->
  (forall j pj, reaches line fields (i + 2) q j pj -> fields !! j = Some "-ex" ->
                exists arg, fields !! (j + 1) = Some arg /\
                            HasPrefix arg targetCmd = false) ->
  exists x, last fields = Some x /\
            rrParseGdbCommand line = Ok (mkInit q x None).
Proof.
  intros fields Hreach Hi Harg Hq Hlater.
  pose proof (rrParseGdbCommand_scanList line) as Hp. simpl in Hp. fold fields in Hp.
  rewrite Hp. clear Hp.
  apply reaches_scanList in Hreach. rewrite drop_0 in Hreach. rewrite Hreach.
  assert (Hb : loopBody line fields i p = Ok (Continue (i + 2) q)).
  { pose proof (loopBody_ex_step line fields i p q Hi Harg). done. }
  apply lookup_lt_Some in Hi as Hlt.
  rewrite (reaches_scanList line fields i (i + 2) p q)
    by (eapply reaches_step; [done|exact Hb|constructor]).
  rewrite (scanList_keeps_port line fields q (length fields) (i + 2)) by (done || lia).
  rewrite decide_False by done.
  destruct (last fields) as [x|] eqn:Hlast; [by exists x|].
  apply last_None in Hlast. rewrite Hlast in Hlt. simpl in Hlt. lia.
Qed.

End Parser.

(** ** The preflight check *)

Section Preflight.
Context `{E : Externals}.


(** The check only reads: it opens no descriptor. *)
Lemma checkRRAvailable_state (env : Env) (s : State) :
  exists r evs,
    checkRRAvailable env s
    = (Ok r, mkState (nextFd s) (openFds s) (evs ++ EvLookPath "rr" :: events s)).
Proof.
  unfold checkRRAvailable, mbind, M_bind, bind, emit. simpl.
  destruct (lookPath env "rr"); simpl.
  - destruct (readFile env perfEventParanoidPath); simpl;
      [case_decide|]; simpl; by eexists _, [_].
  - by eexists _, [].
Qed.

End Preflight.

(** ** Redirects *)

Ltac run_M :=
  unfold mbind, M_bind, bind, mret, M_ret, ret, emit, newHandle, lift, panic in *;
  simpl in *.

(** [openRedirects] always returns; without error it returns a closure,
    and with an error it returns [nil] for the three files and for the
    closure. *)
Lemma openRedirects_cases (env : Env) (redirects : Redirect) (quiet : bool) (s : State) :
  exists r s', openRedirects env redirects quiet s = (Ok r, s') /\
    ((r_err r = None /\ exists toclose, r_closefn r = Some toclose) \/
     (exists e, r = mkRedirects None None None None (Some e) /\
                Mode redirects = RedirectPathMode)).
Proof.
  unfold openRedirects, create, os_Open, os_Create.
  destruct redirects as [mode files [[p0 p1] p2]]. simpl.
  destruct mode; run_M; [eauto 10|].
  destruct (decide (p0 <> "")); [destruct (openErr env p0)|destruct quiet];
    run_M; [eauto 10|..];
    (destruct (decide (p1 = "")); [|destruct (createErr env p1)];
     run_M; [..|eauto 10|]);
    (destruct (decide (p2 = "")); [|destruct (createErr env p2)];
     run_M; eauto 10).
Qed.

(** With an unreadable standard input path, [openRedirects] returns the
    error of [os.Open]; no descriptor was opened, and the closure returned
    is [nil]. *)
Lemma openRedirects_stdin_unreadable
    (env : Env) (redirects : Redirect) (quiet : bool) (s : State) (e : error) :
  Mode redirects = RedirectPathMode ->
  (Paths redirects).1.1 <> "" ->
  openErr env (Paths redirects).1.1 = Some e ->
  exists s', openRedirects env redirects quiet s
             = (Ok (mkRedirects None None None None (Some e)), s') /\
             openFds s' = openFds s /\ nextFd s' = nextFd s.
Proof.
  intros Hm Hp He. unfold openRedirects, os_Open. rewrite Hm.
  rewrite decide_True by done. run_M. rewrite He. run_M. eauto.
Qed.




(** ** Recording and replaying *)

Lemma closeAll_Ok (fs : list File) (s : State) :
  exists s', closeAll fs s = (Ok tt, s').
Proof.
  revert s. induction fs as [|f fs IH]; intros s; simpl.
  - by exists s.
  - unfold mbind, M_bind, bind, Close. apply IH.
Qed.

Section RecordReplay.
Context `{E : Externals}.

(** The value that [rrStderrParser] sends is never lost in a panic. *)
Lemma rrStderrParser_Ok (lines : list string) (rderr : error) (quiet : bool) :
  exists r out, rrStderrParser lines rderr quiet = (Ok r, out).
Proof.
  induction lines as [|line rest IH]; simpl; [eauto|].
  destruct (HasPrefix line rrGdbCommandPrefix) eqn:Hp.
  - destruct (HasPrefix_slice _ _ Hp) as (l & -> & _).
    destruct (rrParseGdbCommand_cases l) as (r & -> & _). eauto.
  - destruct (HasPrefix line rrGdbLaunchPrefix); [done|].
    destruct IH as (r & out & ->). eauto.
Qed.

(** [RecordAsync] returns either an error alone, or the closure [run]
    with a closure [closefn] that is not [nil]. *)
Lemma RecordAsync_cases (env : Env) (cmd : list string) (wd : string)
    (quiet : bool) (redirects : Redirect) (s : State) :
  exists res s',
    RecordAsync env cmd wd quiet redirects s = (Ok res, s') /\
    ((exists e, res = (None, None, Some e)) \/
     (exists c toclose wfd,
         res = (Some (mkRun c (Some toclose) wfd), Some c, None))).
Proof.
  unfold RecordAsync.
  destruct (checkRRAvailable_state env s) as (r & evs & Hc).
  unfold mbind at 1. unfold M_bind, bind at 1. rewrite Hc.
  destruct r as [e|]; [run_M; eauto 10|].
  unfold os_Pipe. destruct (pipeErr env) as [e|]; [run_M; eauto 10|].
  run_M.
  match goal with
  | |- context [openRedirects ?e ?r ?q ?st] =>
      destruct (openRedirects_cases e r q st) as (rr & s' & Ho & Hcase); rewrite Ho
  end.
  destruct Hcase as [(He & toclose & Hcl)|(e & -> & _)]; simpl.
  - rewrite He. destruct rr as [? ? ? ? ?]. simpl in *. subst.
    eexists _, _. split; [done|]. right. by eexists _, _, _.
  - eauto 10.
Qed.

(** [Record] always returns. *)
Lemma Record_total (env : Env) (cmd : list string) (wd : string)
    (quiet : bool) (redirects : Redirect) (s : State) :
  exists tracedir err s1,
    Record_ env cmd wd quiet redirects s = (Ok (tracedir, err), s1).
Proof.
  unfold Record_.
  destruct (RecordAsync_cases env cmd wd quiet redirects s)
    as (res & s' & Hr & [(e & ->)|(c & toclose & wfd & ->)]);
    unfold mbind at 1; unfold M_bind, bind at 1; rewrite Hr; simpl.
  - run_M. eauto.
  - unfold callRun. simpl. destruct (runRecord env c) as [bs err].
    unfold mbind, M_bind, bind, emit. simpl.
    match goal with
    | |- context [closeAll ?l ?st] =>
        destruct (closeAll_Ok l st) as (s1 & ->)
    end.
    unfold Close, mret, M_ret, ret. simpl. eauto.
Qed.

(** [Replay] always returns; it starts with a look-up of [rr], and the
    target it returns carries the detach hook that was asked for. *)
Lemma Replay_total (env : Env) (tracedir : string) (quiet deleteOnDetach : bool)
    (debugInfoDirs : list string) (s : State) :
  exists t e s2 evs,
    Replay env tracedir quiet deleteOnDetach debugInfoDirs s = (Ok (t, e), s2) /\
    events s2 = evs ++ EvLookPath "rr" :: events s /\
    (forall tg, t = Some tg ->
                e = None /\
                onDetach tg = (if deleteOnDetach then Some tracedir else None)).
Proof.
  unfold Replay.
  destruct (checkRRAvailable_state env s) as (r & evs & Hc).
  unfold mbind at 1. unfold M_bind, bind at 1. rewrite Hc.
  destruct r as [e|]; [run_M; by eexists _, _, _, _|].
  destruct (stderrPipeErr env); [run_M; by eexists _, _, _, _|].
  run_M.
  destruct (startErr env); [by eexists _, _, _, (_ :: _)|].
  destruct (replayStderr env tracedir) as [lines rderr].
  destruct (rrStderrParser_Ok lines rderr quiet) as (init & out & ->). simpl.
  destruct (err init); simpl.
  - by eexists _, _, _, (_ :: _ :: _ :: _).
  - destruct (dialErr env (port init) (exe init)); simpl.
    + by eexists _, _, _, (_ :: _ :: _ :: _ :: _).
    + eexists _, _, _, (_ :: _ :: _ :: _). split_and!; [done..|].
      by intros tg [= <-].
Qed.

Lemma RecordAndReplay_unfold (env : Env) (cmd : list string) (wd : string)
    (quiet : bool) (debugInfoDirs : list string) (redirects : Redirect)
    (s s1 : State) (tracedir : string) (err : option error) :
  Record_ env cmd wd quiet redirects s = (Ok (tracedir, err), s1) ->
  RecordAndReplay env cmd wd quiet debugInfoDirs redirects s =
  if decide (tracedir = "") then (Ok (None, "", err), s1)
  else
    match Replay env tracedir quiet true debugInfoDirs s1 with
    | (Ok (t, err'), s2) => (Ok (t, tracedir, err'), s2)
    | (Panicked w, s2) => (Panicked w, s2)
    | (Diverged, s2) => (Diverged, s2)
    end.
Proof.
  intros Hrec. unfold RecordAndReplay, mbind, M_bind, bind. rewrite Hrec. simpl.
  case_decide; [done|].
  destruct (Replay env tracedir quiet true debugInfoDirs s1) as [[[t e]| |] s2]; done.
Qed.

(** C6: [RecordAndReplay] runs [Record] to its end.  When the trace
    directory is the empty string it returns the error of [Record] with a
    nil target and does nothing more; otherwise it runs [Replay] on the
    trace directory with [deleteOnDetach = true] -- whatever the error of
    [Record] was -- and returns the target and the error of [Replay]
    together with the trace directory. *)
Theorem RecordAndReplay_spec (env : Env) (cmd : list string) (wd : string)
    (quiet : bool) (debugInfoDirs : list string) (redirects : Redirect) (s : State) :
  exists tracedir err s1,
    Record_ env cmd wd quiet redirects s = (Ok (tracedir, err), s1) /\
    ((tracedir = "" /\
      RecordAndReplay env cmd wd quiet debugInfoDirs redirects s
      = (Ok (None, "", err), s1)) \/
     (tracedir <> "" /\
      exists t err' s2 evs,
        Replay env tracedir quiet true debugInfoDirs s1 = (Ok (t, err'), s2) /\
        RecordAndReplay env cmd wd quiet debugInfoDirs redirects s
        = (Ok (t, tracedir, err'), s2) /\
        events s2 = evs ++ EvLookPath "rr" :: events s1 /\
        (forall tg, t = Some tg -> onDetach tg = Some tracedir))).
Proof.
  destruct (Record_total env cmd wd quiet redirects s) as (tracedir & err & s1 & Hrec).
  exists tracedir, err, s1. split; [done|].
  rewrite (RecordAndReplay_unfold _ _ _ _ _ _ _ _ _ _ Hrec).
  destruct (decide (tracedir = "")) as [->|Hne].
  - left. by split.
  - right. split; [done|].
    destruct (Replay_total env tracedir quiet true debugInfoDirs s1)
      as (t & err' & s2 & evs & Hrep & Hev & Hdet).
    exists t, err', s2, evs. rewrite Hrep.
    split_and!; [done..|]. intros tg Htg. by destruct (Hdet tg Htg).
Qed.

End RecordReplay.

(** ** The trace directory cleaner *)

Lemma existsb_IsDir (l : list (string * DirEntry)) :
  existsb IsDir (toFileInfo <$> l) = true <->
  exists n e, (n, e) ∈ l /\ entryIsDir e = true.
Proof.
  rewrite existsb_exists. split.
  - intros (fi & Hin & Hd). apply list_elem_of_In, list_elem_of_fmap in Hin.
    destruct Hin as ([n e] & -> & Hin). by exists n, e.
  - intros (n & e & Hin & Hd). exists (toFileInfo (n, e)). split; [|done].
    apply list_elem_of_In, list_elem_of_fmap. by exists (n, e).
Qed.





(** ** The parser on concrete lines *)

#[local] Transparent targetCmd rrGdbCommandPrefix rrGdbLaunchPrefix.

Lemma loopBody_ex_witness :
  loopBody sysrootLine ["-ex"; "set sysroot /"; "exe"] 0 "" = Ok (Continue 1 "").
Proof.
  exact (loopBody_ex sysrootLine ["-ex"; "set sysroot /"; "exe"] 0 "" eq_refl).
Defined.

(** C2 as stated fails: the argument of [-ex] is not consumed when it does
    not start with the prefix.  The loop goes on at position 1, and on the
    line [-ex -ex 'target extended-remote :1' exe] the second [-ex], which
    is the argument of the first, is examined as a flag and gives the
    port. *)
Lemma ex_argument_not_consumed :
  splitQuotedFields nestedFlag "'"%char
  = ["-ex"; "-ex"; "target extended-remote :1"; "exe"] /\
  loopBody nestedFlag ["-ex"; "-ex"; "target extended-remote :1"; "exe"] 0 ""
  = Ok (Continue 1 "") /\
  @rrParseGdbCommand goExternals nestedFlag = Ok (mkInit ":1" "exe" None) /\
  ~ (forall line fields i p arg,
        fields !! i = Some "-ex" -> fields !! (i + 1) = Some arg ->
        exists q, loopBody line fields i p = Ok (Continue (i + 2) q)).
Proof.
  split_and!.
  - vm_compute. reflexivity.
  - vm_compute. reflexivity.
  - vm_compute. reflexivity.
  - intros Hall.
    destruct (Hall "" ["-ex"; "x"] 0 "" "x" eq_refl eq_refl) as (q & Hq).
    vm_compute in Hq. congruence.
Qed.

Lemma rrStderrParser_gdb_line_witness :
  @rrStderrParser goExternals
    ((rrGdbCommandPrefix +:+ gdbLine "/usr/bin/true") :: ["rr: exiting"])
    (ErrOS "EOF") false
  = (Ok (mkInit "127.0.0.1:9999" "/usr/bin/true" None), ["rr: exiting"]).
Proof.
  refine (proj1 (@rrStderrParser_gdb_line goExternals
                   "/usr/bin/true" (gdbLine "/usr/bin/true") _ _ _ _ _)).
  - vm_compute. reflexivity.
  - discriminate.
Defined.

(** C4 as stated fails for the executable [-ex]: the last field is then
    read as a flag without argument, and the line is refused. *)
Lemma gdb_line_exe_ex :
  splitQuotedFields (gdbLine "-ex") "'"%char
  = ["-ex"; "target extended-remote 127.0.0.1:9999"; "-l"; "somefile"; "-ex"] /\
  @rrStderrParser goExternals [rrGdbCommandPrefix +:+ gdbLine "-ex"] (ErrOS "EOF") false
  = (Ok (mkInit "" "" (Some (ErrMalformedRRGdbCommand (gdbLine "-ex")
                               "-ex not followed by an argument"))), []).
Proof.
  split.
  - vm_compute. reflexivity.
  - vm_compute. reflexivity.
Qed.

Lemma rrParseGdbCommand_no_port_witness :
  exists reason,
    @rrParseGdbCommand goExternals noPort
    = Ok (mkInit "" "" (Some (ErrMalformedRRGdbCommand noPort reason))) /\
    (reason = "-ex not followed by an argument" \/
     reason = "could not find -ex argument") /\
    (forall q,
        loop (S (length (@SplitQuotedFields goExternals noPort "'"%char))) noPort
          (@SplitQuotedFields goExternals noPort "'"%char) 0 ""
        = Ok (Completed q) ->
        reason = "could not find -ex argument").
Proof.
  refine (@rrParseGdbCommand_no_port goExternals noPort _).
  intros (i & q & Hi & _). vm_compute in Hi.
  destruct i as [|[|[|i]]]; discriminate.
Defined.

Lemma rrParseGdbCommand_last_match_witness :
  exists x,
    last (@SplitQuotedFields goExternals twoMatches "'"%char) = Some x /\
    @rrParseGdbCommand goExternals twoMatches = Ok (mkInit ":2" x None).
Proof.
  refine (@rrParseGdbCommand_last_match goExternals twoMatches 2 ":1" ":2" _ _ _ _ _).
  - refine (reaches_step _ _ 0 "" 2 ":1" 2 ":1" _ _ (reaches_here _ _ _ _)).
    + vm_compute. lia.
    + vm_compute. reflexivity.
  - vm_compute. reflexivity.
  - vm_compute. reflexivity.
  - discriminate.
  - intros j pj Hr Hj. exfalso. vm_compute in Hr, Hj.
    inversion Hr as [|? ? ? ? ? ? Hlt Hb Hr']; subst.
    + discriminate.
    + vm_compute in Hb. injection Hb as <- <-.
      inversion Hr' as [|? ? ? ? ? ? Hlt' _ _]; subst; [discriminate|].
      vm_compute in Hlt'. lia.
Defined.

(** C9 as stated fails when the last [-ex] with such an argument is not
    examined as a flag: here it is the argument of [-l], which is skipped,
    and the port of the earlier match is returned. *)
Lemma last_ex_field_skipped :
  let fields := splitQuotedFields skippedMatch "'"%char in
  fields !! 3 = Some "-ex" /\
  fields !! 4 = Some (targetCmd +:+ ":2") /\
  (forall j, 3 < j -> fields !! j <> Some "-ex") /\
  @rrParseGdbCommand goExternals skippedMatch = Ok (mkInit ":1" "exe" None).
Proof.
  split_and!.
  - vm_compute. reflexivity.
  - vm_compute. reflexivity.
  - intros j Hj. vm_compute.
    do 4 (destruct j as [|j]; [lia|]). destruct j as [|[|j]]; discriminate.
  - vm_compute. reflexivity.
Qed.

(** ** The cleaner on concrete directories *)



(** ** Recording on concrete machines *)

(** The descriptor that [openRedirects] leaves open stays open in its
    caller: [Record] returns the error, and descriptor 3 is still held. *)
Lemma Record_leak :
  exists s',
    @Record_ goExternals plainEnv ["true"] "." true
      (pathRedirect "in.txt" "/nonexistent/out.txt" "") startState
    = (Ok ("", Some (ErrOS "no such file or directory")), s') /\
    3 ∈ openFds s'.
Proof.
  eexists. split; [vm_compute; reflexivity|]. simpl. set_solver.
Qed.

(** ** The modelled tokenizer on the line of the handshake *)

Lemma append_nil_r (s : string) : s +:+ "" = s.
Proof.
  induction s as [|c s IH]; [done|].
  change (String c (s +:+ "") = String c s). by rewrite IH.
Qed.

Lemma append_snoc (s t : string) (c : ascii) :
  (s +:+ String c "") +:+ t = s +:+ String c t.
Proof.
  induction s as [|d s IH]; [done|].
  change (String d ((s +:+ String c "") +:+ t) = String d (s +:+ String c t)).
  by rewrite IH.
Qed.

Lemma splitFrom_word (x buf : string) :
  plainChars x = true ->
  splitFrom "'"%char inField buf (x +:+ newline) = [buf +:+ x].
Proof.
  revert buf. induction x as [|c x IH]; intros buf Hx.
  - by rewrite append_nil_r.
  - simpl in Hx. apply andb_prop in Hx as [Hc Hx]. apply andb_prop in Hc as [Hsp Hq].
    apply negb_true_iff in Hsp. apply negb_true_iff, bool_decide_eq_false in Hq.
    simpl. rewrite decide_False, Hsp by done.
    by rewrite IH, append_snoc.
Qed.

(** For every word in the place of the executable, the line of the form
    of C4 is split in the five fields that [rrStderrParser_gdb_line]
    asks for. *)
Lemma splitQuotedFields_gdbLine (x : string) :
  x <> "" -> plainChars x = true ->
  splitQuotedFields (gdbLine x) "'"%char
  = ["-ex"; "target extended-remote 127.0.0.1:9999"; "-l"; "somefile"; x].
Proof.
  intros Hne Hx. unfold splitQuotedFields, gdbLine.
  assert (Hpre : forall rest,
             splitFrom "'"%char inSpace ""
               ("-ex 'target extended-remote 127.0.0.1:9999' -l somefile " +:+ rest)
             = "-ex" :: "target extended-remote 127.0.0.1:9999" :: "-l" :: "somefile"
                 :: splitFrom "'"%char inSpace "" rest).
  { intros rest. vm_compute. reflexivity. }
  rewrite Hpre. do 4 f_equal.
  destruct x as [|c x]; [done|]. simpl in Hx.
  apply andb_prop in Hx as [Hc Hx]. apply andb_prop in Hc as [Hsp Hq].
  apply negb_true_iff in Hsp. apply negb_true_iff, bool_decide_eq_false in Hq.
  simpl. rewrite decide_False, Hsp by done.
  by rewrite splitFrom_word.
Qed.

(** ** The whole on concrete machines *)

(** A recorded program that crashes still gives a trace, and the trace is
    replayed: the error of the recording is dropped. *)
Lemma RecordAndReplay_crashing_program :
  let env := withRunRecord plainEnv ("/tmp/trace" +:+ newline) (Some (ErrOS "exit status 2")) in
  (@Record_ goExternals env ["false"] "." true (pathRedirect "" "" "") startState).1
  = Ok ("/tmp/trace", Some (ErrOS "exit status 2")) /\
  (@RecordAndReplay goExternals env ["false"] "." true [] (pathRedirect "" "" "") startState).1
  = Ok (Some (mkTarget "/tmp/trace" true (Some "/tmp/trace")
                "127.0.0.1:9999" "/usr/bin/true" []),
        "/tmp/trace", None).
Proof. split; vm_compute; reflexivity. Qed.

(** Without a trace directory nothing is replayed, and the error of the
    recording is what comes back. *)
Lemma RecordAndReplay_no_trace :
  let env := withRunRecord plainEnv newline (Some (ErrOS "signal: terminated")) in
  (@RecordAndReplay goExternals env ["sleep"; "100"] "." true []
     (pathRedirect "" "" "") startState).1
  = Ok (None, "", Some (ErrOS "signal: terminated")).
Proof. vm_compute. reflexivity. Qed.

(** The preflight on three contents of the pseudo-file. *)
Lemma checkRRAvailable_examples :
  (@checkRRAvailable goExternals (withParanoid plainEnv (Some ("3" +:+ newline))) startState).1
  = Ok (Some (ErrPerfEventParanoid 3)) /\
  (@checkRRAvailable goExternals (withParanoid plainEnv (Some ("1" +:+ newline))) startState).1
  = Ok None /\
  (@checkRRAvailable goExternals (withParanoid plainEnv None) startState).1 = Ok None.
Proof. split_and!; vm_compute; reflexivity. Qed.

(** * Further properties of the code *)

#[local] Opaque targetCmd rrGdbCommandPrefix rrGdbLaunchPrefix.

(** ** The parser *)

Lemma scanList_plain (line : string) (pre rest : list string) (p : string) :
  Forall plainField pre ->
  scanList line (pre ++ rest) p = scanList line rest p.
Proof.
  induction 1 as [|f pre [Hex Hl] _ IH]; [done|]. simpl.
  by rewrite decide_False, decide_False by done.
Qed.

Lemma scanList_Break_last (line : string) (l : list string) (p : string) (r : rrInit) :
  scanList line l p = Break r -> last l = Some "-ex".
Proof.
  revert p. induction l as [l IH] using (induction_ltof1 _ (@length string)).
  unfold ltof in IH. intros p Hs. destruct l as [|f tl]; simpl in Hs; [done|].
  assert (Htl : forall p', tl <> [] -> scanList line tl p' = Break r ->
                           last (f :: tl) = Some "-ex").
  { intros p' Hne Hs'. destruct tl as [|g tl']; [done|].
    change (last (g :: tl') = Some "-ex"). eapply IH; [simpl; lia|exact Hs']. }
  destruct (decide (f = "-ex")) as [->|Hex].
  - destruct tl as [|arg rest]; [done|].
    destruct (HasPrefix arg targetCmd).
    + destruct rest as [|g rest']; [done|].
      change (last (g :: rest') = Some "-ex"). eapply IH; [simpl; lia|exact Hs].
    + by eapply Htl.
  - destruct (decide (f = "-l")).
    + destruct tl as [|x rest]; [done|]. destruct rest as [|g rest']; [done|].
      change (last (g :: rest') = Some "-ex"). eapply IH; [simpl; lia|exact Hs].
    + destruct tl as [|g tl']; [done|]. by eapply Htl.
Qed.

Section ParserMore.
Context `{E : Externals}.

(** X1: the error "-ex not followed by an argument" is returned only for
    a line whose last field is [-ex]. *)
Theorem rrParseGdbCommand_missing_argument (line : string) (r : rrInit) :
  rrParseGdbCommand line = Ok r ->
  err r = Some (ErrMalformedRRGdbCommand line "-ex not followed by an argument") ->
  last (SplitQuotedFields line "'"%char) = Some "-ex".
Proof.
  intros Hr He. pose proof (rrParseGdbCommand_scanList line) as Hp. simpl in Hp.
  rewrite Hr in Hp.
  destruct (scanList line (SplitQuotedFields line "'"%char) "") as [r'|q] eqn:Hs.
  - by apply scanList_Break_last in Hs.
  - case_decide; [by simplify_eq|by case_match; simplify_eq].
Qed.

(** X2: a port that the parser returns is never empty, and it is what
    follows the prefix [target extended-remote ] in a field that comes
    right after a field [-ex]. *)
Theorem rrParseGdbCommand_port_sound (line : string) (r : rrInit) :
  rrParseGdbCommand line = Ok r ->
  err r = None ->
  port r <> "" /\
  exists i, SplitQuotedFields line "'"%char !! i = Some "-ex" /\
            SplitQuotedFields line "'"%char !! (i + 1) = Some (targetCmd +:+ port r).
Proof.
  intros Hr He. unfold rrParseGdbCommand in Hr.
  destruct (loop _ line _ 0 "") as [[r'|q]|w|] eqn:Hl; [| |done|done].
  - rewrite loop_scanList, drop_0 in Hl by lia.
    injection Hl as Hs. injection Hr as ->. apply scanList_Break in Hs. by subst.
  - case_decide as Hq; [by simplify_eq|]. case_match; [|done]. simplify_eq. simpl.
    split; [done|]. by apply loop_port in Hl as [->|Hj].
Qed.

(** X3: fields that are not flags are ignored.  When the fields are plain
    fields, then [-ex] with an argument made of the prefix and a non-empty
    port, then plain fields again, the parser returns that port, and as
    executable the last field of the line. *)
Theorem rrParseGdbCommand_single_match
    (line : string) (pre post : list string) (q : string) :
  SplitQuotedFields line "'"%char = pre ++ ["-ex"; targetCmd +:+ q] ++ post ->
  Forall plainField pre -> Forall plainField post ->
  q <> "" ->
  rrParseGdbCommand line
  = Ok (mkInit q (default (targetCmd +:+ q) (last post)) None).
Proof.
  intros Hf Hpre Hpost Hq.
  pose proof (rrParseGdbCommand_scanList line) as Hp. simpl in Hp.
  rewrite Hp, Hf. clear Hp.
  rewrite scanList_plain by done. simpl.
  rewrite HasPrefix_app, slice_from_app. simpl.
  rewrite <- (app_nil_r post) at 1. rewrite scanList_plain by done. simpl.
  rewrite decide_False by done.
  rewrite !last_app. simpl.
  destruct post as [|x post _] using rev_ind; [done|].
  by rewrite app_comm_cons, !last_snoc.
Qed.

(** X4: [rrStderrParser] hands the first line that starts with
    [rrGdbCommandPrefix] to the parser, without the prefix, and sends the
    result; it writes the lines before it as [echoed] says, and every line
    after it, whatever [quiet] is and whatever these lines start with. *)
Theorem rrStderrParser_first_command
    (pre more : list string) (l : string) (rderr : error) (quiet : bool) :
  Forall (fun x => HasPrefix x rrGdbCommandPrefix = false) pre ->
  rrStderrParser (pre ++ (rrGdbCommandPrefix +:+ l) :: more) rderr quiet
  = (rrParseGdbCommand l, echoed quiet pre ++ more).
Proof.
  induction 1 as [|x pre Hx _ IH]; simpl.
  - rewrite HasPrefix_app, slice_from_app. unfold echoed. by destruct quiet.
  - rewrite Hx, IH. unfold echoed. destruct (HasPrefix x rrGdbLaunchPrefix) eqn:Hl.
    + destruct quiet; [done|]. by rewrite filter_cons_False by congruence.
    + destruct quiet; [done|]. by rewrite filter_cons_True by done.
Qed.

(** X5: when the stream ends before a line starts with
    [rrGdbCommandPrefix], [rrStderrParser] sends the error that ended the
    stream, with an empty port and executable. *)
Theorem rrStderrParser_no_command (lines : list string) (rderr : error) (quiet : bool) :
  Forall (fun x => HasPrefix x rrGdbCommandPrefix = false) lines ->
  rrStderrParser lines rderr quiet
  = (Ok (mkInit "" "" (Some rderr)), echoed quiet lines).
Proof.
  induction 1 as [|x pre Hx _ IH]; simpl.
  - unfold echoed. by destruct quiet.
  - rewrite Hx, IH. unfold echoed. destruct (HasPrefix x rrGdbLaunchPrefix) eqn:Hl.
    + destruct quiet; [done|]. by rewrite filter_cons_False by congruence.
    + destruct quiet; [done|]. by rewrite filter_cons_True by done.
Qed.

End ParserMore.

(** ** Descriptors *)

Lemma closeAll_closedFds (fs : list File) (s : State) :
  closeAll fs s
  = (Ok tt, mkState (nextFd s) (closedFds fs (openFds s))
              (reverse (EvClose <$> fs) ++ events s)).
Proof.
  revert s. induction fs as [|f fs IH]; intros [n l evs0]; simpl; [done|].
  unfold mbind, M_bind, bind, Close. simpl. rewrite IH. simpl.
  by rewrite reverse_cons, <- app_assoc.
Qed.

Lemma filter_fresh (l : list nat) (n m : nat) :
  Forall (fun fd => fd < n) l -> n <= m -> filter (fun x => x <> m) l = l.
Proof.
  intros Hl Hm. induction Hl as [|x l Hx _ IH]; [done|].
  rewrite filter_cons_True by lia. by rewrite IH.
Qed.

Ltac close_fds Hfresh :=
  unfold closedFds; simpl;
  repeat (rewrite filter_cons; case_decide; try lia);
  rewrite ?(filter_fresh _ _ _ Hfresh) by lia; try done.

(** What a successful [openRedirects] leaves behind: the closure it
    returns closes every descriptor it opened, and nothing else. *)
Lemma openRedirects_success (env : Env) (redirects : Redirect) (quiet : bool)
    (s s1 : State) (r : Redirects) :
  freshState s ->
  openRedirects env redirects quiet s = (Ok r, s1) ->
  r_err r = None ->
  exists toclose,
    r_closefn r = Some toclose /\
    nextFd s <= nextFd s1 /\
    Forall (fun fd => fd < nextFd s1) (openFds s1) /\
    closedFds toclose (openFds s1) = openFds s.
Proof.
  intros Hfresh. unfold freshState in Hfresh.
  unfold openRedirects, create, os_Open, os_Create.
  destruct redirects as [mode files [[p0 p1] p2]], s as [n l evs]. simpl in *.
  destruct mode; run_M.
  { intros [= <- <-] _. exists []. simpl. split_and!; [done|lia|done|done]. }
  assert (Hn1 : Forall (fun fd => fd < S n) l)
    by (eapply Forall_impl; [exact Hfresh|simpl; lia]).
  assert (Hn2 : Forall (fun fd => fd < S (S n)) l)
    by (eapply Forall_impl; [exact Hfresh|simpl; lia]).
  assert (Hn3 : Forall (fun fd => fd < S (S (S n))) l)
    by (eapply Forall_impl; [exact Hfresh|simpl; lia]).
  destruct (decide (p0 <> "")); [destruct (openErr env p0)|destruct quiet];
    run_M; [by intros [= <- <-]|..];
    (destruct (decide (p1 = "")); [|destruct (createErr env p1)];
     run_M; [..|by intros [= <- <-]|]);
    (destruct (decide (p2 = "")); [|destruct (createErr env p2)];
     run_M; [..|by intros [= <- <-]|]);
    intros [= <- <-] _; eexists; (split; [reflexivity|]); simpl;
    (split_and!; [lia|repeat constructor; (lia || done)|close_fds Hfresh]).
Qed.

(** X6: after a call of [openRedirects] that returns no error, calling the
    closure it returns leaves open exactly the descriptors that were open
    before the call: it closes every file that [openRedirects] opened, and
    none of the caller's (in file mode it closes nothing). *)
Theorem openRedirects_release (env : Env) (redirects : Redirect) (quiet : bool)
    (s s1 : State) (r : Redirects) :
  freshState s ->
  openRedirects env redirects quiet s = (Ok r, s1) ->
  r_err r = None ->
  exists s2, callClosefn (r_closefn r) s1 = (Ok tt, s2) /\
             openFds s2 = openFds s /\ nextFd s2 = nextFd s1.
Proof.
  intros Hfresh Hopen Herr.
  destruct (openRedirects_success _ _ _ _ _ _ Hfresh Hopen Herr)
    as (toclose & -> & _ & _ & Hclosed).
  eexists. split; [apply closeAll_closedFds|]. simpl. by rewrite Hclosed.
Qed.

(** X7: the files that [openRedirects] returns in path mode.  For an empty
    path it is the default: the standard output and standard error of the
    process, and for the standard input [os.Stdin] when [quiet] and [nil]
    otherwise.  For a path that is given it is a file opened by this call,
    on a descriptor that was not in use before; and when both output paths
    are given, the two files differ (even for equal paths). *)
Theorem openRedirects_handles (env : Env) (redirects : Redirect) (quiet : bool)
    (s s1 : State) (r : Redirects) :
  Mode redirects = RedirectPathMode ->
  openRedirects env redirects quiet s = (Ok r, s1) ->
  r_err r = None ->
  let '(p0, p1, p2) := Paths redirects in
  (p0 = "" -> r_stdin r = if quiet then Some OsStdin else None) /\
  (p1 = "" -> r_stdout r = Some OsStdout) /\
  (p2 = "" -> r_stderr r = Some OsStderr) /\
  (p0 <> "" -> exists fd, r_stdin r = Some (Handle fd) /\
                          nextFd s <= fd /\ fd ∈ openFds s1) /\
  (p1 <> "" -> exists fd, r_stdout r = Some (Handle fd) /\
                          nextFd s <= fd /\ fd ∈ openFds s1) /\
  (p2 <> "" -> exists fd, r_stderr r = Some (Handle fd) /\
                          nextFd s <= fd /\ fd ∈ openFds s1) /\
  (p1 <> "" -> p2 <> "" -> r_stdout r <> r_stderr r).
Proof.
  destruct redirects as [mode files [[p0 p1] p2]], s as [n l evs]. simpl. intros ->.
  unfold openRedirects, create, os_Open, os_Create. simpl.
  destruct (decide (p0 <> "")); [destruct (openErr env p0)|destruct quiet];
    run_M; [by intros [= <- <-]|..];
    (destruct (decide (p1 = "")); [|destruct (createErr env p1)];
     run_M; [..|by intros [= <- <-]|]);
    (destruct (decide (p2 = "")); [|destruct (createErr env p2)];
     run_M; [..|by intros [= <- <-]|]);
    intros [= <- <-] _; simpl;
    (split_and!;
     try done;
     try (intros _; eexists; split_and!; [reflexivity|lia|set_solver]);
     try (intros _ _ [=]; lia)).
Qed.

Section RecordMore.
Context `{E : Externals}.

(** What a successful [RecordAsync] has set up. *)
Lemma RecordAsync_success (env : Env) (cmd : list string) (wd : string)
    (quiet : bool) (redirects : Redirect) (s s1 : State)
    (run : runFn) (stop : option Cmd) :
  freshState s ->
  RecordAsync env cmd wd quiet redirects s = (Ok (Some run, stop, None), s1) ->
  exists toclose,
    stop = Some (run_cmd run) /\
    Args (run_cmd run) = "rr" :: "record" :: "--print-trace-dir=3" :: cmd /\
    Dir (run_cmd run) = wd /\
    ExtraFiles (run_cmd run) = [run_wfd run] /\
    run_wfd run = Handle (S (nextFd s)) /\
    run_closefn run = Some toclose /\
    closedFds toclose (openFds s1) = S (nextFd s) :: nextFd s :: openFds s.
Proof.
  intros Hfresh. unfold RecordAsync.
  destruct (checkRRAvailable_state env s) as (c & evs & Hc).
  unfold mbind at 1. unfold M_bind, bind at 1. rewrite Hc.
  destruct c as [e|]; [by run_M|].
  unfold os_Pipe. destruct (pipeErr env) as [e|]; [by run_M|].
  run_M.
  match goal with
  | |- context [openRedirects ?e ?r ?q ?st] =>
      destruct (openRedirects e r q st) as [[rr| |] s'] eqn:Ho; [|done..];
      assert (Hf : freshState st)
  end.
  { unfold freshState in *. simpl. repeat constructor; [lia..|].
    eapply Forall_impl; [exact Hfresh|simpl; lia]. }
  destruct (r_err rr) as [e|] eqn:He; [done|].
  destruct (openRedirects_success _ _ _ _ _ _ Hf Ho He) as (toclose & Hcl & _ & _ & Hclosed).
  intros [= <- <- <-]. simpl in *. exists toclose. by split_and!.
Qed.

(** X8: the command that [RecordAsync] sets up is
    [rr record --print-trace-dir=3] followed by the command to record, in
    the working directory asked for; its only extra file is the write end
    of the pipe, which the subprocess therefore sees as descriptor 3, and
    [stop] signals this very command. *)
Theorem RecordAsync_command (env : Env) (cmd : list string) (wd : string)
    (quiet : bool) (redirects : Redirect) (s s1 : State)
    (run : runFn) (stop : option Cmd) :
  freshState s ->
  RecordAsync env cmd wd quiet redirects s = (Ok (Some run, stop, None), s1) ->
  Args (run_cmd run) = ["rr"; "record"; "--print-trace-dir=3"] ++ cmd /\
  Dir (run_cmd run) = wd /\
  ExtraFiles (run_cmd run) = [run_wfd run] /\
  (exists fd, run_wfd run = Handle fd /\ fd ∈ openFds s1 /\ fd ∉ openFds s) /\
  stop = Some (run_cmd run).
Proof.
  intros Hfresh Hr.
  destruct (RecordAsync_success _ _ _ _ _ _ _ _ _ Hfresh Hr)
    as (toclose & -> & HA & HD & HX & Hw & _ & Hclosed).
  split_and!; [done..| |done].
  exists (S (nextFd s)). split_and!; [done| |].
  - assert (Hin : S (nextFd s) ∈ closedFds toclose (openFds s1)) by (rewrite Hclosed; left).
    clear -Hin. revert Hin. generalize (openFds s1).
    induction toclose as [|f fs IH]; intros l; [done|]. simpl. intros Hin.
    apply IH in Hin. destruct f; try done. by apply list_elem_of_filter in Hin as [_ ?].
  - intros Hin. unfold freshState in Hfresh. rewrite Forall_forall in Hfresh.
    apply Hfresh in Hin. lia.
Qed.

(** X9: a preflight that fails is final.  [Record], [Replay] and
    [RecordAndReplay] return the error of [checkRRAvailable] as it is and
    do nothing else: no pipe, no file, no process. *)
Theorem preflight_error_returned (env : Env) (cmd : list string) (wd : string)
    (quiet del : bool) (dirs : list string) (redirects : Redirect) (tracedir : string)
    (s s0 : State) (e : error) :
  checkRRAvailable env s = (Ok (Some e), s0) ->
  Record_ env cmd wd quiet redirects s = (Ok ("", Some e), s0) /\
  Replay env tracedir quiet del dirs s = (Ok (None, Some e), s0) /\
  RecordAndReplay env cmd wd quiet dirs redirects s = (Ok (None, "", Some e), s0).
Proof.
  intros Hc.
  assert (Hrec : Record_ env cmd wd quiet redirects s = (Ok ("", Some e), s0)).
  { unfold Record_, RecordAsync, mbind, M_bind, bind. by rewrite Hc. }
  split_and!; [done| |].
  - unfold Replay, mbind, M_bind, bind. by rewrite Hc.
  - by rewrite (RecordAndReplay_unfold _ _ _ _ _ _ _ _ _ _ Hrec).
Qed.

(** X10: when [RecordAsync] succeeds, [Record] runs the command once and
    returns the trimmed text that the subprocess wrote to descriptor 3
    together with the error of the run, whatever that error is.  On return
    the files opened for the redirects and the write end of the pipe are
    closed again; of the descriptors opened, only the read end of the pipe
    is still open. *)
Theorem Record_run (env : Env) (cmd : list string) (wd : string)
    (quiet : bool) (redirects : Redirect) (s s1 : State)
    (run : runFn) (stop : option Cmd) :
  freshState s ->
  RecordAsync env cmd wd quiet redirects s = (Ok (Some run, stop, None), s1) ->
  exists s2 evs,
    Record_ env cmd wd quiet redirects s
    = (Ok (TrimSpace (runRecord env (run_cmd run)).1, (runRecord env (run_cmd run)).2), s2) /\
    openFds s2 = nextFd s :: openFds s /\
    events s2 = evs ++ EvRun (run_cmd run) :: events s1 /\
    Forall (fun ev => forall c, ev <> EvRun c) evs.
Proof.
  intros Hfresh Hr.
  destruct (RecordAsync_success _ _ _ _ _ _ _ _ _ Hfresh Hr)
    as (toclose & _ & _ & _ & _ & Hw & Hcl & Hclosed).
  unfold Record_. unfold mbind at 1. unfold M_bind, bind at 1. rewrite Hr. simpl.
  unfold callRun. destruct (runRecord env (run_cmd run)) as [bs err0]. simpl.
  unfold mbind, M_bind, bind, emit. simpl. rewrite Hcl. simpl.
  rewrite closeAll_closedFds.
  unfold Close, mret, M_ret, ret. simpl. rewrite Hclosed, Hw.
  eexists _, (EvClose _ :: reverse (EvClose <$> toclose)).
  split_and!; [reflexivity| |reflexivity|].
  - unfold freshState in Hfresh.
    rewrite filter_cons_False by lia. rewrite filter_cons_True by lia.
    by rewrite (filter_fresh _ _ _ Hfresh) by lia.
  - constructor; [done|]. apply Forall_reverse, Forall_fmap, Forall_true. done.
Qed.

End RecordMore.

(** ** Replaying *)

Section ReplayMore.
Context `{E : Externals}.

Lemma checkRRAvailable_events (env : Env) (s : State) :
  exists r evs,
    checkRRAvailable env s
    = (Ok r, mkState (nextFd s) (openFds s) (evs ++ events s)) /\
    Forall preflightEvent evs.
Proof.
  unfold checkRRAvailable, mbind, M_bind, bind, emit, preflightEvent. simpl.
  destruct (lookPath env "rr"); simpl.
  - destruct (readFile env perfEventParanoidPath); simpl;
      [case_decide|]; simpl; eexists _, [_; _]; (split; [done|]);
      repeat (apply List.Forall_cons; [first [by left|by right]|]);
      apply List.Forall_nil.
  - eexists _, [_]. split; [done|].
    apply List.Forall_cons; [by left|apply List.Forall_nil].
Qed.

(** A port sent without error is not empty. *)
Lemma rrStderrParser_port (lines : list string) (rderr : error) (quiet : bool)
    (init : rrInit) (out : list string) :
  rrStderrParser lines rderr quiet = (Ok init, out) ->
  err init = None -> port init <> "".
Proof.
  revert out. induction lines as [|line rest IH]; intros out; simpl.
  - intros Heq He. by simplify_eq.
  - destruct (HasPrefix line rrGdbCommandPrefix) eqn:Hp.
    + destruct (HasPrefix_slice _ _ Hp) as (l & -> & _).
      destruct (rrParseGdbCommand_cases l) as (r & Hr & Hcase). rewrite Hr.
      intros Heq He. simplify_eq.
      destruct Hcase as [(_ & Hport & _)|(reason & ->)]; done.
    + destruct (HasPrefix line rrGdbLaunchPrefix); [apply IH|].
      destruct (rrStderrParser rest rderr quiet) as [r out'] eqn:Hrest.
      intros Heq He. simplify_eq. by eapply IH.
Qed.

(** The three ways in which [Replay] returns. *)
Lemma Replay_shape (env : Env) (tracedir : string) (quiet del : bool)
    (dirs : list string) (s s2 : State) (t : option TargetGroup) (e : option error) :
  Replay env tracedir quiet del dirs s = (Ok (t, e), s2) ->
  exists evs, events s2 = evs ++ events s /\
    ((t = None /\ is_Some e /\ (EvKill ∉ evs) /\
      (is_Some (startErr env) \/ forall c, EvStart c ∉ evs)) \/
     (t = None /\ is_Some e /\ startErr env = None /\
      (exists c, EvStart c ∈ evs) /\ head evs = Some EvKill) \/
     (exists init out,
         rrStderrParser (replayStderr env tracedir).1 (replayStderr env tracedir).2 quiet
         = (Ok init, out) /\
         err init = None /\
         t = Some (mkTarget tracedir true (if del then Some tracedir else None)
                     (port init) (exe init) dirs) /\
         e = None /\ (EvKill ∉ evs) /\
         head evs = Some (EvDial (port init) (exe init)))).
Proof.
  unfold Replay.
  destruct (checkRRAvailable_events env s) as (r & evs & Hc & Hpre).
  assert (Hk : EvKill ∉ evs).
  { intros Hin. rewrite Forall_forall in Hpre. by destruct (Hpre _ Hin). }
  assert (Hst : forall c, EvStart c ∉ evs).
  { intros c Hin. rewrite Forall_forall in Hpre. by destruct (Hpre _ Hin). }
  unfold mbind at 1. unfold M_bind, bind at 1. rewrite Hc.
  destruct r as [e0|]; [run_M; intros [= <- <- <-]; exists evs; eauto 10|].
  destruct (stderrPipeErr env);
    [run_M; intros [= <- <- <-]; exists evs; eauto 10|].
  run_M.
  destruct (startErr env) as [e0|] eqn:Hse.
  { intros [= <- <- <-]. eexists (_ :: evs). split; [done|]. left.
    split_and!; [done|eauto| |eauto]. by rewrite not_elem_of_cons. }
  destruct (replayStderr env tracedir) as [lines rderr]. simpl.
  destruct (rrStderrParser lines rderr quiet) as [[init| |] out] eqn:Hparse;
    simpl; [|done..].
  destruct (err init) as [e0|] eqn:Hinit; simpl.
  { intros [= <- <- <-]. eexists (_ :: _ :: _ :: evs).
    split; [done|]. right. left. split_and!; [done|eauto|done| |done].
    eexists. rewrite !elem_of_cons. right. right. left. reflexivity. }
  destruct (dialErr env (port init) (exe init)) as [e0|]; simpl.
  - intros [= <- <- <-]. eexists (_ :: _ :: _ :: _ :: evs).
    split; [done|]. right. left. split_and!; [done|eauto|done| |done].
    eexists. rewrite !elem_of_cons. right. right. right. left. reflexivity.
  - intros [= <- <- <-]. eexists (_ :: _ :: _ :: evs).
    split; [done|]. right. right. exists init, out.
    split_and!; [done..| |done]. by rewrite !not_elem_of_cons.
Qed.

(** X11: [Replay] never returns with an error and leaves the [rr] it
    started running.  It kills the subprocess exactly when the subprocess
    was started and no target is returned, and the kill is then the last
    thing it does; it never kills it when it returns a target. *)
Theorem Replay_kill (env : Env) (tracedir : string) (quiet del : bool)
    (dirs : list string) (s s2 : State) (t : option TargetGroup) (e : option error) :
  Replay env tracedir quiet del dirs s = (Ok (t, e), s2) ->
  exists evs, events s2 = evs ++ events s /\
    (EvKill ∈ evs <-> t = None /\ startErr env = None /\ exists c, EvStart c ∈ evs) /\
    (EvKill ∈ evs -> head evs = Some EvKill).
Proof.
  intros Hr. destruct (Replay_shape _ _ _ _ _ _ _ _ _ Hr) as (evs & Hev & Hcase).
  exists evs. split; [done|].
  destruct Hcase as [(-> & _ & Hk & Hs)|[(-> & _ & Hs & Hc & Hh)|
                     (init & out & _ & _ & -> & _ & Hk & _)]].
  - split; [|done]. split; [done|]. intros (_ & Hs' & c & Hc).
    destruct Hs as [[x Hx]|Hs]; [congruence|]. by destruct (Hs c).
  - split; [|done]. split; [done|]. intros _.
    destruct evs as [|ev evs']; [done|]. simpl in Hh. injection Hh as ->. left.
  - split; [|done]. split; [done|]. by intros [[=] _].
Qed.

(** X12: a target that [Replay] returns is set up from the handshake.  The
    port and the executable it was dialed with are the ones that
    [rrStderrParser] got from the diagnostic stream, the port is not
    empty, the dial is the last thing [Replay] did, the target uses the
    [X] command for memory writes, and it carries the detach hook for the
    trace directory if and only if [deleteOnDetach] was asked for. *)
Theorem Replay_target (env : Env) (tracedir : string) (quiet del : bool)
    (dirs : list string) (s s2 : State) (tg : TargetGroup) (e : option error) :
  Replay env tracedir quiet del dirs s = (Ok (Some tg, e), s2) ->
  exists init out,
    rrStderrParser (replayStderr env tracedir).1 (replayStderr env tracedir).2 quiet
    = (Ok init, out) /\
    err init = None /\
    dialPort tg = port init /\ dialExe tg = exe init /\ dialPort tg <> "" /\
    head (events s2) = Some (EvDial (dialPort tg) (dialExe tg)) /\
    useXcmd tg = true /\
    onDetach tg = (if del then Some tracedir else None).
Proof.
  intros Hr. destruct (Replay_shape _ _ _ _ _ _ _ _ _ Hr) as (evs & Hev & Hcase).
  destruct Hcase as [([=] & _)|[([=] & _)|
                     (init & out & Hp & Hi & [= ->] & _ & _ & Hh)]].
  exists init, out. simpl. split_and!; [done..| | |done|done].
  - by eapply rrStderrParser_port.
  - rewrite Hev. by destruct evs.
Qed.

(** X13: [Replay] returns a target or an error, never both and never
    neither. *)
Theorem Replay_target_xor_error (env : Env) (tracedir : string) (quiet del : bool)
    (dirs : list string) (s s2 : State) (t : option TargetGroup) (e : option error) :
  Replay env tracedir quiet del dirs s = (Ok (t, e), s2) ->
  (is_Some t <-> e = None).
Proof.
  intros Hr. destruct (Replay_shape _ _ _ _ _ _ _ _ _ Hr) as (evs & _ & Hcase).
  destruct Hcase as [(-> & [x ->] & _)|[(-> & [x ->] & _)|
                     (init & out & _ & _ & -> & -> & _)]].
  - split; [by intros [? [=]]|done].
  - split; [by intros [? [=]]|done].
  - split; [done|eauto].
Qed.

(** X14: [RecordAndReplay] can return neither a target nor an error.  It
    does so exactly when the recording ended without error and without a
    trace directory; nothing is replayed then. *)
Theorem RecordAndReplay_nothing (env : Env) (cmd : list string) (wd : string)
    (quiet : bool) (dirs : list string) (redirects : Redirect)
    (s s2 : State) (td : string) :
  RecordAndReplay env cmd wd quiet dirs redirects s = (Ok (None, td, None), s2) <->
  td = "" /\ Record_ env cmd wd quiet redirects s = (Ok ("", None), s2).
Proof.
  destruct (Record_total env cmd wd quiet redirects s) as (tracedir & err0 & s1 & Hrec).
  rewrite (RecordAndReplay_unfold _ _ _ _ _ _ _ _ _ _ Hrec), Hrec.
  destruct (decide (tracedir = "")) as [->|Hne].
  - split; [by intros [= <- <- <-]|by intros [-> [= <- <-]]].
  - split; [|intros [_ [=]]; done].
    destruct (Replay env tracedir quiet true dirs s1) as [[[t e]| |] s'] eqn:Hrep; [|done..].
    intros [= -> <- -> <-].
    destruct (Replay_shape _ _ _ _ _ _ _ _ _ Hrep)
      as (evs & _ & [(_ & [x [=]] & _)|[(_ & [x [=]] & _)|(? & ? & _ & _ & [=] & _)]]).
Qed.

(** X15: a target that [RecordAndReplay] returns comes without error and
    with a trace directory that is not empty; it is the target of this
    very directory, dialed on a port that is not empty, and it will remove
    the directory on detach. *)
Theorem RecordAndReplay_target (env : Env) (cmd : list string) (wd : string)
    (quiet : bool) (dirs : list string) (redirects : Redirect)
    (s s2 : State) (tg : TargetGroup) (td : string) (e : option error) :
  RecordAndReplay env cmd wd quiet dirs redirects s = (Ok (Some tg, td, e), s2) ->
  e = None /\ td <> "" /\ tracedir tg = td /\ dialPort tg <> "" /\
  onDetach tg = Some td /\ debugInfoDirs tg = dirs.
Proof.
  destruct (Record_total env cmd wd quiet redirects s) as (tracedir & err0 & s1 & Hrec).
  rewrite (RecordAndReplay_unfold _ _ _ _ _ _ _ _ _ _ Hrec).
  destruct (decide (tracedir = "")) as [->|Hne]; [done|].
  destruct (Replay env tracedir quiet true dirs s1) as [[[t e']| |] s'] eqn:Hrep; [|done..].
  intros [= -> <- <- <-].
  destruct (Replay_shape _ _ _ _ _ _ _ _ _ Hrep)
    as (evs & _ & [([=] & _)|[([=] & _)|(init & out & Hp & Hi & [= ->] & -> & _)]]).
  simpl. split_and!; [done..| |done|done].
  by eapply rrStderrParser_port.
Qed.

End ReplayMore.

(** ** The cleaner *)


(** The loop never removes an entry that the system refuses to remove. *)
Lemma removeLoop_keeps (dir : string) (rm : bool) (l : list FileInfo) :
  forall (entries : gmap string DirEntry) (fs fs' : gmap string Node) (finished : bool),
    fs !! dir = Some (Directory entries rm) ->
    removeLoop dir l fs = (fs', finished) ->
    exists entries',
      fs' = <[dir := Directory entries' rm]> fs /\
      entries' ⊆ entries /\
      (forall n e, entries !! n = Some e -> entryRemovable e = false ->
                   entries' !! n = Some e).
Proof.
  induction l as [|fi l IH]; intros entries fs fs' finished Hdir Hloop; simpl in Hloop.
  - simplify_eq. exists entries. split_and!; [by rewrite insert_id|done|done].
  - rewrite Hdir in Hloop.
    destruct (entries !! Name fi) as [e|] eqn:He.
    2:{ simplify_eq. exists entries. split_and!; [by rewrite insert_id|done|done]. }
    destruct (entryRemovable e) eqn:Hrm.
    2:{ simplify_eq. exists entries. split_and!; [by rewrite insert_id|done|done]. }
    apply IH with (entries := delete (Name fi) entries) in Hloop
      as (entries' & -> & Hsub & Hkeep); [|apply lookup_insert_eq].
    exists entries'. split_and!.
    + by rewrite insert_insert_eq.
    + etrans; [exact Hsub|apply delete_subseteq].
    + intros n e' Hn Hrm'. apply Hkeep; [|done].
      rewrite lookup_delete_ne; [done|]. intros <-. congruence.
Qed.


(** X17: an entry that is a directory, or that the system refuses to
    remove, survives [safeRemoveAll], and the directory survives with it:
    after the call the directory is still there, with that entry and with
    no entry that it did not have before. *)
Theorem safeRemoveAll_keeps
    (dir : string) (fs : gmap string Node) (entries : gmap string DirEntry) (rm : bool)
    (n : string) (e : DirEntry) :
  fs !! dir = Some (Directory entries rm) ->
  entries !! n = Some e ->
  entryIsDir e = true \/ entryRemovable e = false ->
  exists entries',
    safeRemoveAll dir fs !! dir = Some (Directory entries' rm) /\
    entries' !! n = Some e /\
    entries' ⊆ entries.
Proof.
  intros Hdir Hn Hcase. unfold safeRemoveAll, os_Open_Readdir. rewrite Hdir.
  destruct (existsb IsDir (toFileInfo <$> map_to_list entries)) eqn:Hex;
    [by exists entries|].
  destruct Hcase as [Hd|Hrm].
  { assert (Hex' : existsb IsDir (toFileInfo <$> map_to_list entries) = true).
    { apply existsb_IsDir. exists n, e. split; [|done]. by apply elem_of_map_to_list. }
    congruence. }
  destruct (removeLoop dir (toFileInfo <$> map_to_list entries) fs)
    as [fs' finished] eqn:Hloop.
  destruct (removeLoop_keeps dir rm _ entries fs fs' finished Hdir Hloop)
    as (entries' & -> & Hsub & Hkeep).
  pose proof (Hkeep n e Hn Hrm) as Hn'.
  exists entries'. split; [|done].
  destruct finished; [|apply lookup_insert_eq].
  unfold os_Remove. rewrite lookup_insert_eq.
  rewrite decide_False; [apply lookup_insert_eq|].
  intros ->. by rewrite lookup_empty in Hn'.
Qed.


(** ** More on the parser and on failures of the recording *)

Section FailuresMore.
Context `{E : Externals}.

(** X19: the field after [-l] is skipped whatever it is.  When all the
    other fields are plain, no port is found, also when the skipped field
    is [-ex] and the field after it a [target extended-remote] argument. *)
Theorem rrParseGdbCommand_l_hides
    (line : string) (pre post : list string) (a : string) :
  SplitQuotedFields line "'"%char = pre ++ "-l" :: a :: post ->
  Forall plainField pre -> Forall plainField post ->
  rrParseGdbCommand line
  = Ok (mkInit "" "" (Some (ErrMalformedRRGdbCommand line "could not find -ex argument"))).
Proof.
  intros Hf Hpre Hpost.
  pose proof (rrParseGdbCommand_scanList line) as Hp. simpl in Hp.
  rewrite Hp, Hf. clear Hp.
  rewrite scanList_plain by done. simpl.
  rewrite <- (app_nil_r post). by rewrite scanList_plain by done.
Qed.

(** X20: when the pipe for the trace directory cannot be created,
    [RecordAsync] fails with nil closures, has opened no descriptor, and
    has not looked at the redirects. *)
Theorem RecordAsync_pipe_error (env : Env) (cmd : list string) (wd : string)
    (quiet : bool) (redirects : Redirect) (s : State) (e : error) :
  pipeErr env = Some e ->
  exists e' s1 evs,
    RecordAsync env cmd wd quiet redirects s = (Ok (None, None, Some e'), s1) /\
    openFds s1 = openFds s /\ nextFd s1 = nextFd s /\
    events s1 = evs ++ events s /\
    Forall (fun ev => preflightEvent ev \/ ev = EvPipe) evs.
Proof.
  intros Hpipe. unfold RecordAsync.
  destruct (checkRRAvailable_events env s) as (r & evs & Hc & Hpre).
  unfold mbind at 1. unfold M_bind, bind at 1. rewrite Hc.
  assert (Hpre' : Forall (fun ev => preflightEvent ev \/ ev = EvPipe) evs)
    by (eapply Forall_impl; [exact Hpre|auto]).
  destruct r as [e0|]; run_M.
  - by eexists _, _, evs.
  - unfold os_Pipe. rewrite Hpipe. run_M.
    eexists _, _, (EvPipe :: evs). split_and!; [done..|].
    apply List.Forall_cons; [by right|done].
Qed.

(** X21: a standard input path that cannot be opened makes the whole
    recording fail with the error of [os.Open]: [RecordAndReplay] returns
    it with a nil target and an empty trace directory, and [rr] is neither
    run nor started. *)
Theorem RecordAndReplay_stdin_unreadable (env : Env) (cmd : list string) (wd : string)
    (quiet : bool) (dirs : list string) (redirects : Redirect) (s s0 : State) (e : error) :
  checkRRAvailable env s = (Ok None, s0) ->
  pipeErr env = None ->
  Mode redirects = RedirectPathMode ->
  (Paths redirects).1.1 <> "" ->
  openErr env (Paths redirects).1.1 = Some e ->
  exists s1 evs,
    RecordAndReplay env cmd wd quiet dirs redirects s = (Ok (None, "", Some e), s1) /\
    events s1 = evs ++ events s0 /\
    Forall (fun ev => forall c, ev <> EvRun c /\ ev <> EvStart c) evs.
Proof.
  intros Hc Hpipe Hm Hp He.
  assert (Hrec : exists s1 evs,
             Record_ env cmd wd quiet redirects s = (Ok ("", Some e), s1) /\
             events s1 = evs ++ events s0 /\
             Forall (fun ev => forall c, ev <> EvRun c /\ ev <> EvStart c) evs).
  { unfold Record_, RecordAsync. unfold mbind at 1 2. unfold M_bind, bind at 1 2.
    rewrite Hc. unfold os_Pipe. rewrite Hpipe. run_M.
    unfold openRedirects, os_Open. rewrite Hm. rewrite decide_True by done.
    run_M. rewrite He. run_M.
    eexists _, [_; _]. split_and!; [done..|].
    repeat (apply List.Forall_cons; [by intros c|]). apply List.Forall_nil. }
  destruct Hrec as (s1 & evs & Hrec & Hev & Hno).
  exists s1, evs. by rewrite (RecordAndReplay_unfold _ _ _ _ _ _ _ _ _ _ Hrec).
Qed.

End FailuresMore.

(** ** The further properties on concrete inputs *)

#[local] Transparent targetCmd rrGdbCommandPrefix rrGdbLaunchPrefix.

Lemma rrParseGdbCommand_missing_argument_witness :
  last (@SplitQuotedFields goExternals (gdbLine "-ex") "'"%char) = Some "-ex".
Proof.
  refine (@rrParseGdbCommand_missing_argument goExternals (gdbLine "-ex")
            (mkInit "" "" (Some (ErrMalformedRRGdbCommand (gdbLine "-ex")
                                   "-ex not followed by an argument"))) _ _).
  - vm_compute. reflexivity.
  - reflexivity.
Defined.

Lemma rrParseGdbCommand_port_sound_witness :
  port (mkInit ":2" "exe" None) <> "" /\
  exists i, @SplitQuotedFields goExternals twoMatches "'"%char !! i = Some "-ex" /\
            @SplitQuotedFields goExternals twoMatches "'"%char !! (i + 1)
            = Some (targetCmd +:+ port (mkInit ":2" "exe" None)).
Proof.
  refine (@rrParseGdbCommand_port_sound goExternals twoMatches (mkInit ":2" "exe" None) _ _).
  - vm_compute. reflexivity.
  - reflexivity.
Defined.

Lemma rrParseGdbCommand_single_match_witness :
  @rrParseGdbCommand goExternals plainLine
  = Ok (mkInit ":1" (default (targetCmd +:+ ":1") (last ["/bin/ls"])) None).
Proof.
  refine (@rrParseGdbCommand_single_match goExternals plainLine ["-q"] ["/bin/ls"] ":1"
            _ _ _ _).
  - vm_compute. reflexivity.
  - apply List.Forall_cons; [split; discriminate|apply List.Forall_nil].
  - apply List.Forall_cons; [split; discriminate|apply List.Forall_nil].
  - discriminate.
Defined.

Lemma rrStderrParser_first_command_witness :
  @rrStderrParser goExternals
    (["rr: Saving execution"; "Launch gdb with"]
       ++ (rrGdbCommandPrefix +:+ gdbLine "/usr/bin/true") :: ["  gdb again"])
    (ErrOS "EOF") false
  = (@rrParseGdbCommand goExternals (gdbLine "/usr/bin/true"),
     echoed false ["rr: Saving execution"; "Launch gdb with"] ++ ["  gdb again"]).
Proof.
  refine (@rrStderrParser_first_command goExternals
            ["rr: Saving execution"; "Launch gdb with"] ["  gdb again"]
            (gdbLine "/usr/bin/true") (ErrOS "EOF") false _).
  repeat (apply List.Forall_cons; [vm_compute; reflexivity|]). apply List.Forall_nil.
Defined.

Lemma rrStderrParser_no_command_witness :
  @rrStderrParser goExternals ["rr: cannot open trace"; "Launch gdb with"]
    (ErrOS "EOF") false
  = (Ok (mkInit "" "" (Some (ErrOS "EOF"))),
     echoed false ["rr: cannot open trace"; "Launch gdb with"]).
Proof.
  refine (@rrStderrParser_no_command goExternals
            ["rr: cannot open trace"; "Launch gdb with"] (ErrOS "EOF") false _).
  repeat (apply List.Forall_cons; [vm_compute; reflexivity|]). apply List.Forall_nil.
Defined.

Lemma openRedirects_release_witness :
  exists s2, callClosefn (r_closefn threeFiles) threeOpen = (Ok tt, s2) /\
             openFds s2 = openFds startState /\ nextFd s2 = nextFd threeOpen.
Proof.
  refine (openRedirects_release plainEnv threePaths false startState threeOpen threeFiles
            _ _ _).
  - apply List.Forall_nil.
  - vm_compute. reflexivity.
  - reflexivity.
Defined.

Lemma openRedirects_handles_witness :
  let '(p0, p1, p2) := Paths threePaths in
  (p0 = "" -> r_stdin threeFiles = if false then Some OsStdin else None) /\
  (p1 = "" -> r_stdout threeFiles = Some OsStdout) /\
  (p2 = "" -> r_stderr threeFiles = Some OsStderr) /\
  (p0 <> "" -> exists fd, r_stdin threeFiles = Some (Handle fd) /\
                          nextFd startState <= fd /\ fd ∈ openFds threeOpen) /\
  (p1 <> "" -> exists fd, r_stdout threeFiles = Some (Handle fd) /\
                          nextFd startState <= fd /\ fd ∈ openFds threeOpen) /\
  (p2 <> "" -> exists fd, r_stderr threeFiles = Some (Handle fd) /\
                          nextFd startState <= fd /\ fd ∈ openFds threeOpen) /\
  (p1 <> "" -> p2 <> "" -> r_stdout threeFiles <> r_stderr threeFiles).
Proof.
  refine (openRedirects_handles plainEnv threePaths false startState threeOpen threeFiles
            _ _ _).
  - reflexivity.
  - vm_compute. reflexivity.
  - reflexivity.
Defined.

Lemma RecordAsync_command_witness :
  Args (run_cmd recordRun) = ["rr"; "record"; "--print-trace-dir=3"] ++ ["true"] /\
  Dir (run_cmd recordRun) = "." /\
  ExtraFiles (run_cmd recordRun) = [run_wfd recordRun] /\
  (exists fd, run_wfd recordRun = Handle fd /\ fd ∈ openFds recordReady /\
              fd ∉ openFds startState) /\
  Some recordCmd = Some (run_cmd recordRun).
Proof.
  refine (@RecordAsync_command goExternals plainEnv ["true"] "." true
            (pathRedirect "" "" "") startState recordReady recordRun (Some recordCmd) _ _).
  - apply List.Forall_nil.
  - vm_compute. reflexivity.
Defined.

Lemma preflight_error_returned_witness :
  @Record_ goExternals noRREnv ["true"] "." true (pathRedirect "" "" "") startState
  = (Ok ("", Some ErrBackendUnavailable), mkState 3 [] [EvLookPath "rr"]) /\
  @Replay goExternals noRREnv "/tmp/trace" true true [] startState
  = (Ok (None, Some ErrBackendUnavailable), mkState 3 [] [EvLookPath "rr"]) /\
  @RecordAndReplay goExternals noRREnv ["true"] "." true [] (pathRedirect "" "" "") startState
  = (Ok (None, "", Some ErrBackendUnavailable), mkState 3 [] [EvLookPath "rr"]).
Proof.
  refine (@preflight_error_returned goExternals noRREnv ["true"] "." true true []
            (pathRedirect "" "" "") "/tmp/trace" startState
            (mkState 3 [] [EvLookPath "rr"]) ErrBackendUnavailable _).
  vm_compute. reflexivity.
Defined.

Lemma Record_run_witness :
  exists s2 evs,
    @Record_ goExternals plainEnv ["true"] "." true (pathRedirect "" "" "") startState
    = (Ok (@TrimSpace goExternals (runRecord plainEnv (run_cmd recordRun)).1,
           (runRecord plainEnv (run_cmd recordRun)).2), s2) /\
    openFds s2 = nextFd startState :: openFds startState /\
    events s2 = evs ++ EvRun (run_cmd recordRun) :: events recordReady /\
    Forall (fun ev => forall c, ev <> EvRun c) evs.
Proof.
  refine (@Record_run goExternals plainEnv ["true"] "." true (pathRedirect "" "" "")
            startState recordReady recordRun (Some recordCmd) _ _).
  - apply List.Forall_nil.
  - vm_compute. reflexivity.
Defined.

Lemma Replay_kill_witness :
  exists evs, events replayKilled = evs ++ events startState /\
    (EvKill ∈ evs <->
     @None TargetGroup = None /\ startErr badHandshakeEnv = None /\
     exists c, EvStart c ∈ evs) /\
    (EvKill ∈ evs -> head evs = Some EvKill).
Proof.
  refine (@Replay_kill goExternals badHandshakeEnv "/tmp/trace" true true []
            startState replayKilled None (Some noPortError) _).
  vm_compute. reflexivity.
Defined.

Lemma Replay_target_witness :
  exists init out,
    @rrStderrParser goExternals
      (replayStderr plainEnv "/tmp/trace").1 (replayStderr plainEnv "/tmp/trace").2 true
    = (Ok init, out) /\
    err init = None /\
    dialPort replayTarget = port init /\ dialExe replayTarget = exe init /\
    dialPort replayTarget <> "" /\
    head (events replayDone)
    = Some (EvDial (dialPort replayTarget) (dialExe replayTarget)) /\
    useXcmd replayTarget = true /\
    onDetach replayTarget = (if true then Some "/tmp/trace" else None).
Proof.
  refine (@Replay_target goExternals plainEnv "/tmp/trace" true true []
            startState replayDone replayTarget None _).
  vm_compute. reflexivity.
Defined.

Lemma Replay_target_xor_error_witness :
  is_Some (@None TargetGroup) <-> Some noPortError = None.
Proof.
  refine (@Replay_target_xor_error goExternals badHandshakeEnv "/tmp/trace" true true []
            startState replayKilled None (Some noPortError) _).
  vm_compute. reflexivity.
Defined.


Lemma safeRemoveAll_keeps_witness :
  exists entries',
    safeRemoveAll "/tmp/trace" lockedTrace !! "/tmp/trace"
    = Some (Directory entries' true) /\
    entries' !! "data" = Some (mkEntry false false) /\
    entries' ⊆ {[ "data" := mkEntry false false; "mmap" := mkEntry false true ]}.
Proof.
  refine (safeRemoveAll_keeps "/tmp/trace" lockedTrace
            {[ "data" := mkEntry false false; "mmap" := mkEntry false true ]} true
            "data" (mkEntry false false) _ _ _).
  - vm_compute. reflexivity.
  - vm_compute. reflexivity.
  - right. reflexivity.
Defined.


Lemma rrParseGdbCommand_l_hides_witness :
  @rrParseGdbCommand goExternals hiddenFlag
  = Ok (mkInit "" "" (Some (ErrMalformedRRGdbCommand hiddenFlag
                              "could not find -ex argument"))).
Proof.
  refine (@rrParseGdbCommand_l_hides goExternals hiddenFlag []
            ["target extended-remote :2"; "exe"] "-ex" _ _ _).
  - vm_compute. reflexivity.
  - apply List.Forall_nil.
  - repeat (apply List.Forall_cons; [split; discriminate|]). apply List.Forall_nil.
Defined.

Lemma RecordAsync_pipe_error_witness :
  exists e' s1 evs,
    @RecordAsync goExternals noPipeEnv ["true"] "." true (pathRedirect "" "" "") startState
    = (Ok (None, None, Some e'), s1) /\
    openFds s1 = openFds startState /\ nextFd s1 = nextFd startState /\
    events s1 = evs ++ events startState /\
    Forall (fun ev => preflightEvent ev \/ ev = EvPipe) evs.
Proof.
  refine (@RecordAsync_pipe_error goExternals noPipeEnv ["true"] "." true
            (pathRedirect "" "" "") startState (ErrOS "too many open files") _).
  reflexivity.
Defined.

Lemma RecordAndReplay_stdin_unreadable_witness :
  exists s1 evs,
    @RecordAndReplay goExternals plainEnv ["true"] "." true []
      (pathRedirect "/root/secret" "" "") startState
    = (Ok (None, "", Some (ErrOS "open /root/secret: permission denied")), s1) /\
    events s1 = evs ++ events checkedState /\
    Forall (fun ev => forall c, ev <> EvRun c /\ ev <> EvStart c) evs.
Proof.
  refine (@RecordAndReplay_stdin_unreadable goExternals plainEnv ["true"] "." true []
            (pathRedirect "/root/secret" "" "") startState checkedState
            (ErrOS "open /root/secret: permission denied") _ _ _ _ _).
  - vm_compute. reflexivity.
  - reflexivity.
  - reflexivity.
  - discriminate.
  - vm_compute. reflexivity.
Defined.

Lemma RecordAndReplay_target_witness :
  @None error = None /\ "/root/.local/share/rr/true-0" <> "" /\
  tracedir (mkTarget "/root/.local/share/rr/true-0" true
              (Some "/root/.local/share/rr/true-0") "127.0.0.1:9999" "/usr/bin/true" [])
  = "/root/.local/share/rr/true-0" /\
  dialPort (mkTarget "/root/.local/share/rr/true-0" true
              (Some "/root/.local/share/rr/true-0") "127.0.0.1:9999" "/usr/bin/true" [])
  <> "" /\
  onDetach (mkTarget "/root/.local/share/rr/true-0" true
              (Some "/root/.local/share/rr/true-0") "127.0.0.1:9999" "/usr/bin/true" [])
  = Some "/root/.local/share/rr/true-0" /\
  debugInfoDirs (mkTarget "/root/.local/share/rr/true-0" true
                   (Some "/root/.local/share/rr/true-0") "127.0.0.1:9999" "/usr/bin/true" [])
  = [].
Proof.
  refine (@RecordAndReplay_target goExternals plainEnv ["true"] "." true []
            (pathRedirect "" "" "") startState
            (@RecordAndReplay goExternals plainEnv ["true"] "." true []
               (pathRedirect "" "" "") startState).2
            _ _ None _).
  vm_compute. reflexivity.
Defined.

Lemma RecordAndReplay_nothing_witness :
  @RecordAndReplay goExternals silentEnv ["true"] "." true [] (pathRedirect "" "" "")
    startState
  = (Ok (None, "", None),
     (@Record_ goExternals silentEnv ["true"] "." true (pathRedirect "" "" "")
        startState).2).
Proof.
  refine (proj2 (@RecordAndReplay_nothing goExternals silentEnv ["true"] "." true []
                   (pathRedirect "" "" "") startState _ "") (conj eq_refl _)).
  vm_compute. reflexivity.
Defined.
